(** * DNSButler: a shallow embedding of [dnsbutler.py]

    The program provisions an authoritative BIND server in a container:
    it discovers the public IP, pulls the image, groups the records given
    on the command line by apex domain, writes [named.conf] and one zone
    file per apex, and replaces the container named [dns-server].

    The embedding follows the source method by method.  Python strings are
    [string]; the insertion-ordered [dict] is an association list updated
    in place; exceptions are values with a class hierarchy and a handler
    is a test on the class; methods are computations in a state-and-error
    monad whose state holds the manager object and the outside world
    (file store, container engine, and the log of every external call). *)

From Stdlib Require Import ZArith Lia DecimalString Ascii String.
From stdpp Require Import gmap strings list.

#[global] Arguments String.append !s1 s2 / : simpl nomatch.

(** ** Python primitives used by the program *)

Module Py.

Definition nl : string := String "010"%char EmptyString.
Definition dq : string := String "034"%char EmptyString.
Definition space : ascii := " "%char.

(** [sep.join(l)] *)
Fixpoint join (sep : string) (l : list string) : string :=
  match l with
  | [] => EmptyString
  | x :: xs =>
      match xs with
      | [] => x
      | _ :: _ => x +:+ sep +:+ join sep xs
      end
  end.

(** [s.split(sep)] for a separator of one character: the pieces between
    the separators, empty pieces included; never the empty list. *)
Fixpoint split (sep : ascii) (s : string) : list string :=
  match s with
  | EmptyString => [EmptyString]
  | String c s' =>
      if Ascii.eqb c sep then EmptyString :: split sep s'
      else match split sep s' with
           | [] => [String c EmptyString]
           | w :: ws => String c w :: ws
           end
  end.

(** [l[-n:]] for [n > 0] *)
Definition last_n {A} (n : nat) (l : list A) : list A :=
  drop (length l - n) l.

(** [sep in s] for a separator of one character *)
Fixpoint contains (sep : ascii) (s : string) : bool :=
  match s with
  | EmptyString => false
  | String c s' => Ascii.eqb c sep || contains sep s'
  end.

(** [s.split(sep, 1)]: cut at the first separator, if there is one *)
Fixpoint split1 (sep : ascii) (s : string) : list string :=
  match s with
  | EmptyString => [EmptyString]
  | String c s' =>
      if Ascii.eqb c sep then [EmptyString; s']
      else match split1 sep s' with
           | [] => [String c EmptyString]
           | w :: ws => String c w :: ws
           end
  end.

(** [str.isspace] on ASCII text: tab to carriage return, the four
    separators and the space.  Command-line text is held as bytes, and
    white space outside ASCII is not in the model. *)
Definition isspace (c : ascii) : bool :=
  let n := nat_of_ascii c in
  ((9 <=? n) && (n <=? 13)) || ((28 <=? n) && (n <=? 32)).

Fixpoint lstrip (s : string) : string :=
  match s with
  | EmptyString => EmptyString
  | String c s' => if isspace c then lstrip s' else s
  end.

Fixpoint rstrip (s : string) : string :=
  match s with
  | EmptyString => EmptyString
  | String c s' =>
      match rstrip s' with
      | EmptyString => if isspace c then EmptyString else String c EmptyString
      | r => String c r
      end
  end.

(** [s.strip()] *)
Definition strip (s : string) : string := rstrip (lstrip s).

Fixpoint spaces (n : nat) : string :=
  match n with
  | O => EmptyString
  | S n' => String space (spaces n')
  end.

(** [s.ljust(width)]: spaces are added on the right, and a string that
    is already [width] long or longer is returned as it is. *)
Definition ljust (width : nat) (s : string) : string :=
  s +:+ spaces (width - String.length s).

(** [str(n)] for an [int] *)
Definition str_of_int (n : Z) : string :=
  NilZero.string_of_int (Z.to_int n).

Definition digit_of (c : ascii) : option Z :=
  let n := nat_of_ascii c in
  if (48 <=? n) && (n <=? 57) then Some (Z.of_nat (n - 48)) else None.

Fixpoint int_go (acc : Z) (s : string) : option Z :=
  match s with
  | EmptyString => Some acc
  | String c s' =>
      match digit_of c with
      | Some d => int_go (acc * 10 + d) s'
      | None => None
      end
  end.

(** [int(s)] on a string of decimal digits; [None] stands for the
    [ValueError] of any other text. *)
Definition int_of_str (s : string) : option Z :=
  match s with
  | EmptyString => None
  | _ => int_go 0 s
  end.

(** *** The insertion-ordered [dict] *)

Definition dict (V : Type) : Type := list (string * V).

Definition keys {V} (d : dict V) : list string := d.*1.

(** [d.get(k)] *)
Fixpoint get {V} (k : string) (d : dict V) : option V :=
  match d with
  | [] => None
  | (k', v) :: d' => if String.eqb k' k then Some v else get k d'
  end.

(** [d[k] = v]: an existing key keeps its place and takes the new value,
    a new key goes to the end. *)
Fixpoint set {V} (k : string) (v : V) (d : dict V) : dict V :=
  match d with
  | [] => [(k, v)]
  | (k', v') :: d' =>
      if String.eqb k' k then (k', v) :: d' else (k', v') :: set k v d'
  end.

(** [d.setdefault(k, v)]: the dict afterwards and the value returned *)
Definition setdefault {V} (k : string) (v : V) (d : dict V) : dict V * V :=
  match get k d with
  | Some v' => (d, v')
  | None => (set k v d, v)
  end.

End Py.

(** ** Exceptions *)

Module Exn.

(** The classes the program raises, catches or lets through. *)
Inductive class :=
| BaseException | Exception | KeyboardInterrupt | SystemExit
| ValueError | UnicodeError | LookupError | KeyError | IndexError
| AttributeError
| OSError | PermissionError
| RequestException | HTTPError
| SubprocessError | CalledProcessError
| DockerException | APIError | NotFound | ImageNotFound
| DNSConfigError | DockerError.

Global Instance class_eq_dec : EqDecision class.
Proof. solve_decision. Defined.

(** The proper ancestors of a class.  [docker.errors.APIError] derives
    from both [requests.exceptions.HTTPError] and [DockerException], and
    [RequestException] from [IOError], which is [OSError]. *)
Definition ancestors (c : class) : list class :=
  match c with
  | BaseException => []
  | Exception | KeyboardInterrupt | SystemExit => [BaseException]
  | ValueError | LookupError | AttributeError | OSError | SubprocessError
  | DockerException | DNSConfigError | DockerError =>
      [Exception; BaseException]
  | UnicodeError => [ValueError; Exception; BaseException]
  | KeyError | IndexError => [LookupError; Exception; BaseException]
  | PermissionError => [OSError; Exception; BaseException]
  | RequestException => [OSError; Exception; BaseException]
  | HTTPError => [RequestException; OSError; Exception; BaseException]
  | CalledProcessError => [SubprocessError; Exception; BaseException]
  | APIError =>
      [HTTPError; RequestException; OSError; DockerException; Exception;
       BaseException]
  | NotFound =>
      [APIError; HTTPError; RequestException; OSError; DockerException;
       Exception; BaseException]
  | ImageNotFound =>
      [NotFound; APIError; HTTPError; RequestException; OSError;
       DockerException; Exception; BaseException]
  end.

Definition subclass (c k : class) : bool :=
  bool_decide (c = k) || bool_decide (k ∈ ancestors c).

(** A raised exception: a class with its [str(e)]; a
    [CalledProcessError] with its [cmd] and [stderr]; a [SystemExit]
    with its code. *)
Inductive t :=
| Raised (c : class) (msg : string)
| ProcessFailed (cmd stderr : string)
| Exit (code : Z).

Definition class_of (e : t) : class :=
  match e with
  | Raised c _ => c
  | ProcessFailed _ _ => CalledProcessError
  | Exit _ => SystemExit
  end.

Definition isinstance (e : t) (k : class) : bool := subclass (class_of e) k.

(** [str(e)] *)
Definition str (e : t) : string :=
  match e with
  | Raised _ msg => msg
  | ProcessFailed cmd _ =>
      "Command '" +:+ cmd +:+ "' returned non-zero exit status."
  | Exit code => Py.str_of_int code
  end.

(** [e.cmd] and [e.stderr] *)
Definition cmd (e : t) : string :=
  match e with ProcessFailed c _ => c | _ => EmptyString end.
Definition stderr (e : t) : string :=
  match e with ProcessFailed _ s => s | _ => EmptyString end.

End Exn.

#[global] Arguments Exn.isinstance : simpl never.
#[global] Arguments Exn.str : simpl never.

Inductive result (A : Type) : Type :=
| Ok (a : A)
| Raise (e : Exn.t).
Arguments Ok {A} a.
Arguments Raise {A} e.

(** ** The outside world *)

(** [datetime] *)
Record datetime := {
  year : Z; month : Z; day : Z; hour : Z; minute : Z; second : Z
}.

(** An HTTP response as [requests] returns it. *)
Record response := { status_code : Z; text : string }.

(** A finished shell command ([subprocess.CompletedProcess]). *)
Record completed := { returncode : Z; stdout : string; stderr : string }.

(** The arguments of [containers.run]. *)
Record run_args := {
  ra_image : string;
  ra_ports : list (string * Z);
  ra_volumes : list (string * (string * string));
  ra_detach : bool;
  ra_name : string;
  ra_restart_policy : string;
  ra_network_mode : string
}.

(** A container of the engine. *)
Record container := {
  c_id : nat;
  c_running : bool;
  c_args : run_args
}.

Definition c_name (c : container) : string := ra_name (c_args c).

(** What [containers.run] meets: it goes through, the engine refuses to
    create the container, or the container is created and fails to start
    (it then stays, not running). *)
Inductive run_fault :=
| RunGoesThrough
| CreateFails (e : Exn.t)
| StartFails (e : Exn.t).

(** Every call that leaves the process, in the order made. *)
Inductive event :=
| EHttpGet (url : string) (timeout : Z)
| EShell (cmd : string)
| EPrint (line : string)
| EPrintErr (line : string)
| EFromEnv
| EImagePull (image : string)
| EUtcNow
| EMkdir (path : string)
| EWriteText (path content : string)
| EContainerGet (name : string)
| EContainerRemove (id : nat) (force : bool)
| EContainerRun (args : run_args).

Global Instance run_args_eq_dec : EqDecision run_args.
Proof. solve_decision. Defined.
Global Instance event_eq_dec : EqDecision event.
Proof. solve_decision. Defined.

(** How the environment answers during one run.  Calls made once per run
    have one answer; image pulls are answered by attempt, clock readings
    by reading, shell commands and file writes by their argument. *)
Record env := {
  http_get : result response;
  shell : string -> result completed;
  from_env : result unit;
  image_pull : nat -> result unit;
  utcnow : nat -> datetime;
  mkdir_fault : option Exn.t;
  write_fault : string -> option (Exn.t * option string);
  get_fault : option Exn.t;
  remove_fault : option Exn.t;
  run_fault_of : run_fault
}.

(** The manager object ([self]) and the world it acts on. *)
Record state := {
  client : bool;
  dns_records : Py.dict (Py.dict string);
  docker_image : string;
  volume_path : string;
  public_ip : option string;
  dirs : gset string;
  files : gmap string string;
  containers : list container;
  next_id : nat;
  trace : list event
}.

Definition set_client (b : bool) (s : state) : state :=
  {| client := b; dns_records := dns_records s;
     docker_image := docker_image s; volume_path := volume_path s;
     public_ip := public_ip s; dirs := dirs s; files := files s;
     containers := containers s; next_id := next_id s; trace := trace s |}.

Definition set_dns_records (r : Py.dict (Py.dict string)) (s : state) : state :=
  {| client := client s; dns_records := r;
     docker_image := docker_image s; volume_path := volume_path s;
     public_ip := public_ip s; dirs := dirs s; files := files s;
     containers := containers s; next_id := next_id s; trace := trace s |}.

Definition set_public_ip (ip : option string) (s : state) : state :=
  {| client := client s; dns_records := dns_records s;
     docker_image := docker_image s; volume_path := volume_path s;
     public_ip := ip; dirs := dirs s; files := files s;
     containers := containers s; next_id := next_id s; trace := trace s |}.

Definition set_dirs (d : gset string) (s : state) : state :=
  {| client := client s; dns_records := dns_records s;
     docker_image := docker_image s; volume_path := volume_path s;
     public_ip := public_ip s; dirs := d; files := files s;
     containers := containers s; next_id := next_id s; trace := trace s |}.

Definition set_files (f : gmap string string) (s : state) : state :=
  {| client := client s; dns_records := dns_records s;
     docker_image := docker_image s; volume_path := volume_path s;
     public_ip := public_ip s; dirs := dirs s; files := f;
     containers := containers s; next_id := next_id s; trace := trace s |}.

Definition set_containers (cs : list container) (n : nat) (s : state) : state :=
  {| client := client s; dns_records := dns_records s;
     docker_image := docker_image s; volume_path := volume_path s;
     public_ip := public_ip s; dirs := dirs s; files := files s;
     containers := cs; next_id := n; trace := trace s |}.

Definition log (ev : event) (s : state) : state :=
  {| client := client s; dns_records := dns_records s;
     docker_image := docker_image s; volume_path := volume_path s;
     public_ip := public_ip s; dirs := dirs s; files := files s;
     containers := containers s; next_id := next_id s;
     trace := trace s ++ [ev] |}.

(** ** The state-and-error monad *)

Definition M (A : Type) : Type := state -> result A * state.

Definition ret {A} (a : A) : M A := fun s => (Ok a, s).

Definition raise {A} (e : Exn.t) : M A := fun s => (Raise e, s).

Definition bind {A B} (m : M A) (f : A -> M B) : M B :=
  fun s =>
    match m s with
    | (Ok a, s') => f a s'
    | (Raise e, s') => (Raise e, s')
    end.

Declare Scope py_scope.
Delimit Scope py_scope with py.
Notation "'let!' x ':=' m 'in' k" := (bind m (fun x => k))
  (at level 10, x name, m at level 100, k at level 200) : py_scope.
Notation "m ';;;' k" := (bind m (fun _ => k))
  (at level 100, k at level 200, right associativity) : py_scope.
Open Scope py_scope.

(** [try: m except ...: h]: the handler gets the exception and says
    whether one of its clauses takes it. *)
Definition try_except {A} (m : M A) (h : Exn.t -> option (M A)) : M A :=
  fun s =>
    match m s with
    | (Ok a, s') => (Ok a, s')
    | (Raise e, s') =>
        match h e with
        | Some k => k s'
        | None => (Raise e, s')
        end
    end.

Definition gets {A} (f : state -> A) : M A := fun s => (Ok (f s), s).
Definition modify (f : state -> state) : M unit := fun s => (Ok tt, f s).
Definition emit (ev : event) : M unit := modify (log ev).
Definition lift {A} (r : result A) : M A := fun s => (r, s).

(** [for x in l: body] *)
Fixpoint for_each {A} (l : list A) (body : A -> M unit) : M unit :=
  match l with
  | [] => ret tt
  | x :: l' => body x ;;; for_each l' body
  end.

Definition count_events (p : event -> bool) (s : state) : nat :=
  length (filter (fun ev => p ev = true) (trace s)).

(** ** The calls into the environment *)

Section Program.

Variable E : env.

(** [print(line)] and [print(line, file=sys.stderr)] *)
Definition print (line : string) : M unit := emit (EPrint line).
Definition eprint (line : string) : M unit := emit (EPrintErr line).

(** [sys.exit(code)] *)
Definition sys_exit {A} (code : Z) : M A := raise (Exn.Exit code).

(** [requests.get(url, timeout=t)]: a response of any status is
    returned; only a failed exchange raises. *)
Definition requests_get (url : string) (timeout : Z) : M response :=
  emit (EHttpGet url timeout) ;;; lift (http_get E).

(** [subprocess.run(cmd, shell=True, check=True, capture_output=True,
    text=True)]: [check=True] turns a non-zero return code into
    [CalledProcessError]. *)
Definition subprocess_run (cmd : string) : M completed :=
  emit (EShell cmd) ;;;
  let! p := lift (shell E cmd) in
  if (returncode p =? 0)%Z then ret p
  else raise (Exn.ProcessFailed cmd (stderr p)).

(** [docker.from_env()] *)
Definition docker_from_env : M bool :=
  emit EFromEnv ;;; lift (from_env E) ;;; ret true.

Definition is_pull (ev : event) : bool :=
  match ev with EImagePull _ => true | _ => false end.
Definition is_utcnow (ev : event) : bool :=
  match ev with EUtcNow => true | _ => false end.

(** [images.pull(image)] *)
Definition images_pull (image : string) : M unit :=
  let! n := gets (count_events is_pull) in
  emit (EImagePull image) ;;; lift (image_pull E n).

(** [datetime.utcnow()] *)
Definition datetime_utcnow : M datetime :=
  let! n := gets (count_events is_utcnow) in
  emit EUtcNow ;;; ret (utcnow E n).

(** The directory and every directory above it: ["/etc/bind"] gives
    ["/"], ["/etc"], ["/etc/bind"]. *)
Fixpoint path_prefixes (pre : string) (parts : list string) : list string :=
  match parts with
  | [] => []
  | p :: ps =>
      let here := if String.eqb pre EmptyString then p
                  else if String.eqb pre "/" then "/" +:+ p
                  else pre +:+ "/" +:+ p in
      here :: path_prefixes here ps
  end.

Definition with_parents (path : string) : list string :=
  match Py.split "/" path with
  | EmptyString :: ps => "/" :: path_prefixes "/" ps
  | ps => path_prefixes EmptyString ps
  end.

(** [Path(path).mkdir(parents=True, exist_ok=True)] *)
Definition path_mkdir (path : string) : M unit :=
  emit (EMkdir path) ;;;
  match mkdir_fault E with
  | Some e => raise e
  | None => modify (fun s => set_dirs (dirs s ∪ list_to_set (with_parents path)) s)
  end.

(** [dir / name] for a relative [name] *)
Definition path_join (dir name : string) : string := dir +:+ "/" +:+ name.

(** [Path(path).write_text(content)]: the file then holds exactly
    [content]; a write that fails leaves the file as it was, or with
    what got through. *)
Definition write_text (path content : string) : M unit :=
  emit (EWriteText path content) ;;;
  match write_fault E path with
  | Some (e, rest) =>
      modify (fun s => match rest with
                       | Some part => set_files (<[path := part]> (files s)) s
                       | None => s
                       end) ;;;
      raise e
  | None => modify (fun s => set_files (<[path := content]> (files s)) s)
  end.

(** [self.client.containers.get(name)]: the container of that name, or
    [NotFound]. *)
Definition containers_get (name : string) : M container :=
  emit (EContainerGet name) ;;;
  match get_fault E with
  | Some e => raise e
  | None =>
      let! cs := gets containers in
      match List.find (fun c => String.eqb (c_name c) name) cs with
      | Some c => ret c
      | None => raise (Exn.Raised Exn.NotFound
                         ("No such container: " +:+ name))
      end
  end.

(** [container.remove(force=force)]: a running container goes only
    when forced. *)
Definition container_remove (c : container) (force : bool) : M unit :=
  emit (EContainerRemove (c_id c) force) ;;;
  match remove_fault E with
  | Some e => raise e
  | None =>
      let! cs := gets containers in
      match List.find (fun c' => Nat.eqb (c_id c') (c_id c)) cs with
      | None => raise (Exn.Raised Exn.NotFound "No such container")
      | Some c' =>
          if c_running c' && negb force
          then raise (Exn.Raised Exn.APIError
                        "cannot remove a running container")
          else modify (fun s =>
                 set_containers
                   (List.filter (fun x => negb (Nat.eqb (c_id x) (c_id c)))
                      (containers s))
                   (next_id s) s)
      end
  end.

(** [self.client.containers.run(image, ..., detach=True)]: create the
    container under a name no other container has, then start it. *)
Definition containers_run (args : run_args) : M container :=
  emit (EContainerRun args) ;;;
  match run_fault_of E with
  | CreateFails e => raise e
  | fault =>
      let! cs := gets containers in
      if existsb (fun c => String.eqb (c_name c) (ra_name args)) cs
      then raise (Exn.Raised Exn.APIError
                    ("Conflict. The container name is already in use: "
                     +:+ ra_name args))
      else
        let! n := gets next_id in
        let created := {| c_id := n; c_running := false; c_args := args |} in
        let started := {| c_id := n; c_running := true; c_args := args |} in
        match fault with
        | StartFails e =>
            modify (fun s => set_containers (containers s ++ [created]) (S n) s) ;;;
            raise e
        | _ =>
            modify (fun s => set_containers (containers s ++ [started]) (S n) s) ;;;
            ret started
        end
  end.

(** A call through [self.client], which is [None] until [start] sets it. *)
Definition via_client {A} (attr : string) (m : M A) : M A :=
  let! c := gets client in
  if c then m
  else raise (Exn.Raised Exn.AttributeError
                ("'NoneType' object has no attribute '" +:+ attr +:+ "'")).

(** ** [DNSServerManager] *)

(** [__init__] *)
Definition __init__ : M unit :=
  modify (fun s =>
    {| client := false; dns_records := [];
       docker_image := "ubuntu/bind9:latest"; volume_path := "/etc/bind";
       public_ip := None; dirs := dirs s; files := files s;
       containers := containers s; next_id := next_id s;
       trace := trace s |}).

Definition _run_command (cmd : string) : M string :=
  try_except
    (let! result := subprocess_run cmd in
     ret (Py.strip (stdout result)))
    (fun e =>
       if Exn.isinstance e Exn.CalledProcessError
       then Some (raise (Exn.Raised Exn.DNSConfigError
                           ("Command failed: " +:+ Exn.cmd e +:+ Py.nl
                            +:+ "Error: " +:+ Exn.stderr e)))
       else None).

Definition ip_echo_url : string := "https://api.ipify.org".

Definition ip_fallback_command : string :=
  "curl -4 ifconfig.co 2>/dev/null || hostname -I | awk '{print $1}'".

Definition _get_public_ip : M string :=
  try_except
    (let! r := requests_get ip_echo_url 3 in ret (text r))
    (fun e =>
       if Exn.isinstance e Exn.RequestException
       then Some
         (try_except
            (_run_command ip_fallback_command)
            (fun e' =>
               if Exn.isinstance e' Exn.DNSConfigError
               then Some (raise (Exn.Raised Exn.DNSConfigError
                                   "Failed to determine public IP address"))
               else None))
       else None).

Definition _setup_docker : M unit :=
  try_except
    (_run_command "docker ps" ;;; ret tt)
    (fun e =>
       if Exn.isinstance e Exn.DNSConfigError
       then Some
         (try_except
            (print "Installing Docker..." ;;;
             _run_command "curl -fsSL https://get.docker.com | sh" ;;;
             _run_command "systemctl enable --now docker" ;;;
             ret tt)
            (fun e' =>
               if Exn.isinstance e' Exn.DNSConfigError
               then Some (raise (Exn.Raised Exn.DockerError
                                   ("Docker installation failed: "
                                    +:+ Exn.str e')))
               else None))
       else None).

Definition max_retries : nat := 3.

(** One turn of the loop of [_pull_bind_image]: [true] when the method
    returns, [false] when the loop goes on. *)
Definition pull_attempt (attempt : nat) : M bool :=
  let! image := gets docker_image in
  try_except
    (via_client "images" (images_pull image) ;;; ret true)
    (fun e =>
       if Exn.isinstance e Exn.ImageNotFound
       then Some (raise (Exn.Raised Exn.DockerError
                           ("Image " +:+ image +:+ " not found")))
       else if Exn.isinstance e Exn.APIError
       then Some
         (if Nat.eqb attempt (max_retries - 1)
          then raise (Exn.Raised Exn.DockerError
                        ("Failed to pull image: " +:+ Exn.str e))
          else
            print ("Retrying image pull ("
                   +:+ Py.str_of_int (Z.of_nat (attempt + 1)) +:+ "/"
                   +:+ Py.str_of_int (Z.of_nat max_retries) +:+ ")...") ;;;
            ret false)
       else None).

Fixpoint pull_loop (attempts : list nat) : M unit :=
  match attempts with
  | [] => ret tt
  | attempt :: rest =>
      let! returned := pull_attempt attempt in
      if returned then ret tt else pull_loop rest
  end.

Definition _pull_bind_image : M unit := pull_loop (seq 0 max_retries).

Definition zone_entry (domain : string) : string :=
  "zone " +:+ Py.dq +:+ domain +:+ Py.dq +:+ " { type master; file "
  +:+ Py.dq +:+ "/etc/bind/db." +:+ domain +:+ Py.dq +:+ "; };".

Definition _generate_zone_entries : M string :=
  let! records := gets dns_records in
  ret (Py.join Py.nl (map zone_entry (Py.keys records))).

Definition digit_char (d : Z) : ascii := ascii_of_nat (48 + Z.to_nat d).

(** A number as exactly [w] decimal digits, zero-padded. *)
Fixpoint digits (w : nat) (n : Z) : string :=
  match w with
  | O => EmptyString
  | S w' => digits w' (n / 10) +:+ String (digit_char (n mod 10)) EmptyString
  end.

(** [now.strftime("%Y%m%d%H")] *)
Definition strftime_YmdH (now : datetime) : string :=
  digits 4 (year now) +:+ digits 2 (month now) +:+ digits 2 (day now)
  +:+ digits 2 (hour now).

Definition _get_serial : M Z :=
  let! now := datetime_utcnow in
  match Py.int_of_str (strftime_YmdH now) with
  | Some n => ret n
  | None => raise (Exn.Raised Exn.ValueError
                     "invalid literal for int() with base 10")
  end.

(** [f"{x}"] for a string or [None] *)
Definition str_of_opt (o : option string) : string :=
  match o with Some x => x | None => "None" end.

Definition record_line (rec : string * string) : string :=
  Py.ljust 30 rec.1 +:+ " IN A " +:+ rec.2.

Definition zone_records (rs : Py.dict string) : string :=
  Py.join Py.nl (map record_line rs).

Definition zone_head (domain : string) (serial : Z) (ip : option string)
  : string :=
  "; Zone file for " +:+ domain +:+ Py.nl
  +:+ "$TTL 86400" +:+ Py.nl
  +:+ "@ IN SOA ns." +:+ domain +:+ ". admin." +:+ domain +:+ ". (" +:+ Py.nl
  +:+ "    " +:+ Py.str_of_int serial +:+ Py.nl
  +:+ "    3600" +:+ Py.nl
  +:+ "    900" +:+ Py.nl
  +:+ "    604800" +:+ Py.nl
  +:+ "    86400 )" +:+ Py.nl
  +:+ Py.nl
  +:+ "@       IN NS  ns." +:+ domain +:+ "." +:+ Py.nl
  +:+ "ns      IN A   " +:+ str_of_opt ip +:+ Py.nl
  +:+ Py.nl.

Definition zone_text (domain : string) (serial : Z) (ip : option string)
  (records : string) : string :=
  zone_head domain serial ip +:+ records +:+ Py.nl.

Definition _generate_zone_file (domain : string) : M string :=
  let! all := gets dns_records in
  match Py.get domain all with
  | None => raise (Exn.Raised Exn.KeyError domain)
  | Some rs =>
      let records := zone_records rs in
      let! serial := _get_serial in
      let! ip := gets public_ip in
      ret (zone_text domain serial ip records)
  end.

Definition named_conf_text (entries : string) : string :=
  Py.nl
  +:+ "options {" +:+ Py.nl
  +:+ "    directory " +:+ Py.dq +:+ "/etc/bind" +:+ Py.dq +:+ ";" +:+ Py.nl
  +:+ "    listen-on port 53 { any; };" +:+ Py.nl
  +:+ "    allow-query { any; };" +:+ Py.nl
  +:+ "    recursion no;" +:+ Py.nl
  +:+ "};" +:+ Py.nl
  +:+ Py.nl
  +:+ entries +:+ Py.nl
  +:+ "            ".

Definition write_zone (config_dir domain : string) : M unit :=
  let! zone_content := _generate_zone_file domain in
  write_text (path_join config_dir ("db." +:+ domain)) zone_content.

Definition _generate_zone_files : M unit :=
  try_except
    (let! config_dir := gets volume_path in
     path_mkdir config_dir ;;;
     let! entries := _generate_zone_entries in
     let named_conf := named_conf_text entries in
     write_text (path_join config_dir "named.conf") named_conf ;;;
     let! records := gets dns_records in
     for_each (Py.keys records) (write_zone config_dir))
    (fun e =>
       if Exn.isinstance e Exn.PermissionError
       then Some (raise (Exn.Raised Exn.DNSConfigError
                           ("Permission denied: " +:+ Exn.str e)))
       else if Exn.isinstance e Exn.OSError
       then Some (raise (Exn.Raised Exn.DNSConfigError
                           ("File system error: " +:+ Exn.str e)))
       else None).

Definition container_name : string := "dns-server".

Definition launch_args (image volume : string) : run_args :=
  {| ra_image := image;
     ra_ports := [("53/tcp", 53%Z); ("53/udp", 53%Z)];
     ra_volumes := [(volume, ("/etc/bind", "rw"))];
     ra_detach := true;
     ra_name := container_name;
     ra_restart_policy := "always";
     ra_network_mode := "host" |}.

(** The block "Cleanup existing container if exists" *)
Definition cleanup_existing : M unit :=
  try_except
    (let! old_container :=
       via_client "containers" (containers_get container_name) in
     container_remove old_container true)
    (fun e =>
       if Exn.isinstance e Exn.NotFound then Some (ret tt) else None).

(** The block "Start new container" *)
Definition start_new : M unit :=
  let! image := gets docker_image in
  let! volume := gets volume_path in
  via_client "containers" (containers_run (launch_args image volume)) ;;;
  ret tt.

Definition _start_container : M unit :=
  try_except
    (cleanup_existing ;;; start_new)
    (fun e =>
       if Exn.isinstance e Exn.APIError
       then Some (raise (Exn.Raised Exn.DockerError
                           ("Docker API error: " +:+ Exn.str e)))
       else None).

(** The apex of a host name: its last two labels joined by a dot. *)
Definition apex (record : string) : string :=
  Py.join "." (Py.last_n 2 (Py.split "." record)).

(** [self.config['dns_records'].setdefault(domain, {})[record] = ip]:
    the inner dict is the one held by the outer dict, so the assignment
    shows there. *)
Definition add_record (all : Py.dict (Py.dict string))
  (rec : string * string) : Py.dict (Py.dict string) :=
  let domain := apex rec.1 in
  let '(all', inner) := Py.setdefault domain [] all in
  Py.set domain (Py.set rec.1 rec.2 inner) all'.

Definition organize (records : Py.dict string) : M unit :=
  for_each records (fun rec =>
    modify (fun s => set_dns_records (add_record (dns_records s) rec) s)).

Definition cross : string := "❌".
Definition tick : string := "✅".

Definition start (records : Py.dict string) : M (option string) :=
  try_except
    (let! ip := _get_public_ip in
     modify (set_public_ip (Some ip)) ;;;
     let! shown := gets public_ip in
     print ("Public IP detected: " +:+ str_of_opt shown) ;;;
     _setup_docker ;;;
     let! c := docker_from_env in
     modify (set_client c) ;;;
     _pull_bind_image ;;;
     organize records ;;;
     _generate_zone_files ;;;
     _start_container ;;;
     gets public_ip)
    (fun e =>
       if Exn.isinstance e Exn.DNSConfigError
          || Exn.isinstance e Exn.DockerError
       then Some (eprint (Py.nl +:+ cross +:+ " Error: " +:+ Exn.str e) ;;;
                  sys_exit 1)
       else if Exn.isinstance e Exn.KeyboardInterrupt
       then Some (eprint (Py.nl +:+ "Operation cancelled by user") ;;;
                  sys_exit 130)
       else None).

(** ** [main] *)

(** [parser.parse_args()] on the positional arguments: [nargs='+'] wants
    at least one, and without one [argparse] reports the usage error and
    exits with status 2. *)
Definition parse_args (argv : list string) : M (list string) :=
  match argv with
  | [] => eprint "error: the following arguments are required: RECORD=IP" ;;;
          sys_exit 2
  | _ => ret argv
  end.

Fixpoint parse_records (entries : list string) (records : Py.dict string)
  : M (Py.dict string) :=
  match entries with
  | [] => ret records
  | entry :: rest =>
      if negb (Py.contains "=" entry)
      then raise (Exn.Raised Exn.ValueError
                    ("Invalid record format: " +:+ entry))
      else
        match Py.split1 "=" entry with
        | [host; ip] =>
            parse_records rest (Py.set (Py.strip host) (Py.strip ip) records)
        | _ => raise (Exn.Raised Exn.ValueError
                        "not enough values to unpack (expected 2, got 1)")
        end
  end.

Definition main (argv : list string) : M unit :=
  try_except
    (let! args_records := parse_args argv in
     let! records := parse_records args_records [] in
     __init__ ;;;
     let! dns_ip := start records in
     print (Py.nl +:+ tick +:+ " DNS Server Successfully Configured!") ;;;
     print ("DNS Server Address: " +:+ str_of_opt dns_ip) ;;;
     print "Test Command:" ;;;
     match Py.keys records with
     | first :: _ =>
         print ("dig @" +:+ str_of_opt dns_ip +:+ " " +:+ first +:+ " +short")
     | [] => raise (Exn.Raised Exn.IndexError "list index out of range")
     end)
    (fun e =>
       if Exn.isinstance e Exn.ValueError
       then Some (eprint (cross +:+ " Invalid input: " +:+ Exn.str e) ;;;
                  sys_exit 2)
       else if Exn.isinstance e Exn.Exception
       then Some (eprint (cross +:+ " Unexpected error: " +:+ Exn.str e) ;;;
                  sys_exit 1)
       else None).

End Program.

(** The exit status of the process: 0 when [main] returns, the code of a
    [SystemExit]; an exception that reaches the interpreter is left to it. *)
Definition exit_status (r : result unit) : option Z :=
  match r with
  | Ok _ => Some 0%Z
  | Raise (Exn.Exit code) => Some code
  | Raise _ => None
  end.

(** ** Worlds to run the program in *)

(** The process starts with no manager object: the fields of [self] hold
    what [__init__] will give them. *)
Definition boot (fs : gmap string string) (cs : list container) (n : nat)
  : state :=
  {| client := false; dns_records := [];
     docker_image := "ubuntu/bind9:latest"; volume_path := "/etc/bind";
     public_ip := None; dirs := ∅; files := fs;
     containers := cs; next_id := n; trace := [] |}.

Definition noon : datetime :=
  {| year := 2026; month := 11; day := 3; hour := 12; minute := 0;
     second := 0 |}.

(** An environment in which every call goes through. *)
Definition calm : env :=
  {| http_get := Ok {| status_code := 200; text := "203.0.113.9" |};
     shell := fun _ => Ok {| returncode := 0; stdout := ""; stderr := "" |};
     from_env := Ok tt;
     image_pull := fun _ => Ok tt;
     utcnow := fun _ => noon;
     mkdir_fault := None;
     write_fault := fun _ => None;
     get_fault := None;
     remove_fault := None;
     run_fault_of := RunGoesThrough |}.

(** ** Vocabulary of the statements *)

(** How one pull attempt ends, as [_pull_bind_image] tells the cases
    apart: done, the image is definitely missing, an API error that may
    pass, or anything else. *)
Inductive pull_kind :=
| PullDone
| PullMissing
| PullTransient (e : Exn.t)
| PullOther (e : Exn.t).

Definition classify_pull (r : result unit) : pull_kind :=
  match r with
  | Ok _ => PullDone
  | Raise e =>
      if Exn.isinstance e Exn.ImageNotFound then PullMissing
      else if Exn.isinstance e Exn.APIError then PullTransient e
      else PullOther e
  end.

(** The console notice after the failed attempt number [k], counted from 0. *)
Definition retry_notice (k : nat) : string :=
  "Retrying image pull (" +:+ Py.str_of_int (Z.of_nat (k + 1)) +:+ "/3)...".

(** What the spec calls [ImageError] is a [DockerError] in the code. *)
Definition ImageError (msg : string) : Exn.t := Exn.Raised Exn.DockerError msg.

(** What the spec calls [IPDiscoveryError] is this [DNSConfigError]. *)
Definition IPDiscoveryError : Exn.t :=
  Exn.Raised Exn.DNSConfigError "Failed to determine public IP address".

(** An exception of one of the program's own classes, or the
    [CalledProcessError] that only [check=True] raises: the environment
    raises none of these by itself. *)
Definition own (e : Exn.t) : bool :=
  Exn.isinstance e Exn.DNSConfigError || Exn.isinstance e Exn.DockerError
  || Exn.isinstance e Exn.CalledProcessError.

(** A [datetime] that the clock can give. *)
Definition valid_datetime (t : datetime) : Prop :=
  (1 <= year t <= 9999 /\ 1 <= month t <= 12 /\ 1 <= day t <= 31
   /\ 0 <= hour t <= 23)%Z.

(** The number written YYYYMMDDHH. *)
Definition YYYYMMDDHH (t : datetime) : Z :=
  (year t * 1000000 + month t * 10000 + day t * 100 + hour t)%Z.

(** The containers of the engine that bear the reserved name. *)
Definition named_dns_server (cs : list container) : list container :=
  List.filter (fun c => String.eqb (c_name c) container_name) cs.

(** The container that [_start_container] launches from state [s]. *)
Definition launched (s : state) : container :=
  {| c_id := next_id s; c_running := true;
     c_args := launch_args (docker_image s) (volume_path s) |}.

(** The engine answers every container call of the run. *)
Definition engine_answers (E : env) : Prop :=
  get_fault E = None /\ remove_fault E = None
  /\ run_fault_of E = RunGoesThrough.

(** A container left by an earlier run, stopped. *)
Definition left_over : container :=
  {| c_id := 7; c_running := false;
     c_args := launch_args "ubuntu/bind9:latest" "/etc/bind" |}.

(** A manager that holds a client, facing the engine with that container. *)
Definition connected : state := set_client true (boot ∅ [left_over] 8).

(** An environment whose IP-echo endpoint answers 503. *)
Definition echo_down : env :=
  {| http_get := Ok {| status_code := 503; text := "Service Unavailable" |};
     shell := fun _ => Ok {| returncode := 0; stdout := "198.51.100.7";
                             stderr := "" |};
     from_env := Ok tt;
     image_pull := fun _ => Ok tt;
     utcnow := fun _ => noon;
     mkdir_fault := None;
     write_fault := fun _ => None;
     get_fault := None;
     remove_fault := None;
     run_fault_of := RunGoesThrough |}.

(** An environment whose IP-echo endpoint cannot be reached. *)
Definition echo_unreachable : env :=
  {| http_get := Raise (Exn.Raised Exn.RequestException "connect timeout");
     shell := fun _ => Ok {| returncode := 0; stdout := "198.51.100.7 ";
                             stderr := "" |};
     from_env := Ok tt;
     image_pull := fun _ => Ok tt;
     utcnow := fun _ => noon;
     mkdir_fault := None;
     write_fault := fun _ => None;
     get_fault := None;
     remove_fault := None;
     run_fault_of := RunGoesThrough |}.

(** An environment in which the first two pulls meet an API error. *)
Definition flaky : env :=
  {| http_get := Ok {| status_code := 200; text := "203.0.113.9" |};
     shell := fun _ => Ok {| returncode := 0; stdout := ""; stderr := "" |};
     from_env := Ok tt;
     image_pull := fun n =>
       if n <? 2 then Raise (Exn.Raised Exn.APIError "500 Server Error")
       else Ok tt;
     utcnow := fun _ => noon;
     mkdir_fault := None;
     write_fault := fun _ => None;
     get_fault := None;
     remove_fault := None;
     run_fault_of := RunGoesThrough |}.





(** The file of the zone of [apex] under [dir]. *)
Definition zone_path (dir apex : string) : string :=
  path_join dir ("db." +:+ apex).

(** The zone text of [apex] rendered from [model] at clock reading [n]. *)
Definition zone_at (E : env) (n : nat) (ip : option string)
  (model : Py.dict (Py.dict string)) (apex : string) : string :=
  zone_text apex (YYYYMMDDHH (utcnow E n)) ip
    (zone_records (default [] (Py.get apex model))).

(** The calls made for the zones of [apexes], the first at clock reading
    [n]: for each, the clock is read and the file is written. *)
Fixpoint zone_writes (E : env) (dir : string) (n : nat) (ip : option string)
  (model : Py.dict (Py.dict string)) (apexes : list string) : list event :=
  match apexes with
  | [] => []
  | apex :: rest =>
      EUtcNow :: EWriteText (zone_path dir apex) (zone_at E n ip model apex)
      :: zone_writes E dir (S n) ip model rest
  end.

(** The clock only gives valid times. *)
Definition clock_valid (E : env) : Prop := forall n, valid_datetime (utcnow E n).

(** What the spec calls [PersistenceError] is a [DNSConfigError] whose
    message tells a refused permission from another failure. *)
Definition PersistenceError (e : Exn.t) : Exn.t :=
  if Exn.isinstance e Exn.PermissionError
  then Exn.Raised Exn.DNSConfigError ("Permission denied: " +:+ Exn.str e)
  else Exn.Raised Exn.DNSConfigError ("File system error: " +:+ Exn.str e).

(** Two zones ready to be written. *)
Definition two_zones : state :=
  set_public_ip (Some "203.0.113.9")
    (set_dns_records
       [("example.com", [("a.example.com", "1.1.1.1")]);
        ("example.org", [("b.example.org", "2.2.2.2")])]
       (boot ∅ [] 0)).



(** The records as [main] collects them from pairs given in order. *)
Definition collect (pairs : list (string * string)) : Py.dict string :=
  fold_left (fun d p => Py.set p.1 p.2 d) pairs [].

(** The model as [start] groups it from the records. *)
Definition grouped (records : Py.dict string) : Py.dict (Py.dict string) :=
  fold_left add_record records [].


(** The stages of a run.  Grouping the records makes no call outside the
    process, so no event belongs to [BuildModel]. *)
Inductive stage :=
| Report | ResolveIP | RuntimeCheck | Connect | PullImage | BuildModel
| WriteFiles | ReplaceContainer.

Global Instance stage_eq_dec : EqDecision stage.
Proof. solve_decision. Defined.

(** The stage an external call belongs to; what is printed is a report. *)
Definition stage_of (ev : event) : stage :=
  match ev with
  | EPrint _ | EPrintErr _ => Report
  | EHttpGet _ _ => ResolveIP
  | EShell cmd =>
      if String.eqb cmd ip_fallback_command then ResolveIP else RuntimeCheck
  | EFromEnv => Connect
  | EImagePull _ => PullImage
  | EUtcNow | EMkdir _ | EWriteText _ _ => WriteFiles
  | EContainerGet _ | EContainerRemove _ _ | EContainerRun _ =>
      ReplaceContainer
  end.

(** An event of the stage [tag], or a report. *)
Definition in_stage (tag : stage) (ev : event) : Prop :=
  stage_of ev = tag \/ stage_of ev = Report.

(** The statements of the [try] block of [start], stage by stage. *)
Definition start_stages (E : env) (records : Py.dict string)
  : list (stage * M unit) :=
  [(ResolveIP,
    let! ip := _get_public_ip E in
    modify (set_public_ip (Some ip)) ;;;
    let! shown := gets public_ip in
    print ("Public IP detected: " +:+ str_of_opt shown));
   (RuntimeCheck, _setup_docker E);
   (Connect, let! c := docker_from_env E in modify (set_client c));
   (PullImage, _pull_bind_image E);
   (BuildModel, organize records);
   (WriteFiles, _generate_zone_files E);
   (ReplaceContainer, _start_container E)].

Fixpoint run_stages (l : list (stage * M unit)) : M unit :=
  match l with
  | [] => ret tt
  | (_, m) :: rest => m ;;; run_stages rest
  end.

(** A run of stages from a state: the stages entered, each with the
    events it added, and the outcome.  A stage is entered only when the
    one before it returned, and the first one that raises is the last. *)
Inductive staged :
  list (stage * M unit) -> state -> list (stage * list event) ->
  result unit * state -> Prop :=
| staged_done s : staged [] s [] (Ok tt, s)
| staged_next tag m rest s s1 evs blocks out :
    m s = (Ok tt, s1) -> trace s1 = trace s ++ evs ->
    staged rest s1 blocks out ->
    staged ((tag, m) :: rest) s ((tag, evs) :: blocks) out
| staged_abort tag m rest s s1 e evs :
    m s = (Raise e, s1) -> trace s1 = trace s ++ evs ->
    staged ((tag, m) :: rest) s [(tag, evs)] (Raise e, s1).

(** What [start] does with the outcome of its [try] block. *)
Definition start_outcome (r : result unit * state)
  : result (option string) * state :=
  match r with
  | (Ok _, s) => (Ok (public_ip s), s)
  | (Raise e, s) =>
      if Exn.isinstance e Exn.DNSConfigError
         || Exn.isinstance e Exn.DockerError
      then (Raise (Exn.Exit 1),
            log (EPrintErr (Py.nl +:+ cross +:+ " Error: " +:+ Exn.str e)) s)
      else if Exn.isinstance e Exn.KeyboardInterrupt
      then (Raise (Exn.Exit 130),
            log (EPrintErr (Py.nl +:+ "Operation cancelled by user")) s)
      else (Raise e, s)
  end.

(** A computation only adds events, and all of them satisfy [P]. *)
Definition emits {A} (P : event -> Prop) (m : M A) : Prop :=
  forall s, exists evs, trace (m s).2 = trace s ++ evs /\ Forall P evs.




(** ** Vocabulary of the further properties *)

(** An environment without a container runtime, where installing works. *)
Definition no_runtime : env :=
  {| http_get := Ok {| status_code := 200; text := "203.0.113.9" |};
     shell := fun cmd =>
       if String.eqb cmd "docker ps"
       then Ok {| returncode := 1; stdout := "";
                  stderr := "docker: command not found" |}
       else Ok {| returncode := 0; stdout := ""; stderr := "" |};
     from_env := Ok tt;
     image_pull := fun _ => Ok tt;
     utcnow := fun _ => noon;
     mkdir_fault := None;
     write_fault := fun _ => None;
     get_fault := None;
     remove_fault := None;
     run_fault_of := RunGoesThrough |}.

(** [t1] lies in an earlier hour than [t2]. *)
Definition earlier_hour (t1 t2 : datetime) : Prop :=
  (year t1 < year t2
   \/ (year t1 = year t2
       /\ (month t1 < month t2
           \/ (month t1 = month t2
               /\ (day t1 < day t2
                   \/ (day t1 = day t2 /\ hour t1 < hour t2))))))%Z.

(** [t1] and [t2] lie in the same hour. *)
Definition same_hour (t1 t2 : datetime) : Prop :=
  year t1 = year t2 /\ month t1 = month t2 /\ day t1 = day t2
  /\ hour t1 = hour t2.

(** The number of records of a model, over all its apexes. *)
Definition record_count (model : Py.dict (Py.dict string)) : nat :=
  list_sum (map (fun z => length z.2) model).

(** A computation leaves the observation [f] of the state as it was. *)
Definition preserves {A B} (f : state -> B) (m : M A) : Prop :=
  forall s, f (m s).2 = f s.

(** An environment in which the base directory cannot be created. *)
Definition no_directory : env :=
  {| http_get := Ok {| status_code := 200; text := "203.0.113.9" |};
     shell := fun _ => Ok {| returncode := 0; stdout := ""; stderr := "" |};
     from_env := Ok tt;
     image_pull := fun _ => Ok tt;
     utcnow := fun _ => noon;
     mkdir_fault :=
       Some (Exn.Raised Exn.PermissionError
               "[Errno 13] Permission denied: '/etc/bind'");
     write_fault := fun _ => None;
     get_fault := None;
     remove_fault := None;
     run_fault_of := RunGoesThrough |}.


(** The engine keeps its containers apart: no two share a name or an
    id, and the next id is larger than every id in use. *)
Definition engine_consistent (s : state) : Prop :=
  NoDup (map c_name (containers s))
  /\ NoDup (map c_id (containers s))
  /\ forall c, In c (containers s) -> c_id c < next_id s.

(** Another service on the same engine. *)
Definition web_server : container :=
  {| c_id := 3; c_running := true;
     c_args := {| ra_image := "nginx:latest"; ra_ports := [("80/tcp", 80%Z)];
                  ra_volumes := []; ra_detach := true; ra_name := "web";
                  ra_restart_policy := "always"; ra_network_mode := "bridge" |} |}.

(** A manager that holds a client, facing an engine that runs the other
    service and holds the container of an earlier run. *)
Definition shared_engine : state :=
  set_client true (boot ∅ [web_server; left_over] 8).

(** An environment in which the new container is created and fails to
    start. *)
Definition port_taken : env :=
  {| http_get := Ok {| status_code := 200; text := "203.0.113.9" |};
     shell := fun _ => Ok {| returncode := 0; stdout := ""; stderr := "" |};
     from_env := Ok tt;
     image_pull := fun _ => Ok tt;
     utcnow := fun _ => noon;
     mkdir_fault := None;
     write_fault := fun _ => None;
     get_fault := None;
     remove_fault := None;
     run_fault_of :=
       StartFails (Exn.Raised Exn.APIError
                     "500 Server Error: address already in use") |}.

(** An exception that a call is expected to raise: an [Exception], or
    the interrupt of the user. *)
Definition ordinary (e : Exn.t) : Prop :=
  Exn.isinstance e Exn.Exception = true
  \/ Exn.isinstance e Exn.KeyboardInterrupt = true.

(** Every exception that a call into the environment raises is in [Q]. *)
Definition env_raises (Q : Exn.t -> Prop) (E : env) : Prop :=
  (forall e, http_get E = Raise e -> Q e)
  /\ (forall cmd e, shell E cmd = Raise e -> Q e)
  /\ (forall e, from_env E = Raise e -> Q e)
  /\ (forall n e, image_pull E n = Raise e -> Q e)
  /\ (forall e, mkdir_fault E = Some e -> Q e)
  /\ (forall path e part, write_fault E path = Some (e, part) -> Q e)
  /\ (forall e, get_fault E = Some e -> Q e)
  /\ (forall e, remove_fault E = Some e -> Q e)
  /\ (forall e, run_fault_of E = CreateFails e -> Q e)
  /\ (forall e, run_fault_of E = StartFails e -> Q e).

(** Every exception that a computation raises is in [Q]. *)
Definition raises {A} (Q : Exn.t -> Prop) (m : M A) : Prop :=
  forall s e, (m s).1 = Raise e -> Q e.

(** An environment in which the user interrupts the pull of the image. *)
Definition interrupted : env :=
  {| http_get := Ok {| status_code := 200; text := "203.0.113.9" |};
     shell := fun _ => Ok {| returncode := 0; stdout := EmptyString;
                             stderr := EmptyString |};
     from_env := Ok tt;
     image_pull := fun _ => Raise (Exn.Raised Exn.KeyboardInterrupt EmptyString);
     utcnow := fun _ => noon;
     mkdir_fault := None;
     write_fault := fun _ => None;
     get_fault := None;
     remove_fault := None;
     run_fault_of := RunGoesThrough |}.

(** * Proofs *)

(** ** Running the monad *)

Lemma count_events_log p ev s :
  count_events p (log ev s) = count_events p s + (if p ev then 1 else 0).
Proof.
  unfold count_events, log; simpl.
  rewrite filter_app, length_app. f_equal.
  rewrite filter_cons, filter_nil.
  destruct (p ev) eqn:H; case_decide; simpl; congruence.
Qed.

(** ** Pulling the image *)

Lemma pull_attempt_run E s k :
  client s = true ->
  pull_attempt E k s =
    let tried := log (EImagePull (docker_image s)) s in
    match classify_pull (image_pull E (count_events is_pull s)) with
    | PullDone => (Ok true, tried)
    | PullMissing =>
        (Raise (ImageError ("Image " +:+ docker_image s +:+ " not found")),
         tried)
    | PullTransient e =>
        if Nat.eqb k 2
        then (Raise (ImageError ("Failed to pull image: " +:+ Exn.str e)), tried)
        else (Ok false, log (EPrint (retry_notice k)) tried)
    | PullOther e => (Raise e, tried)
    end.
Proof.
  intros Hc.
  unfold pull_attempt, bind, gets, try_except, via_client, images_pull,
    emit, modify, lift, bind, gets, classify_pull; simpl.
  rewrite Hc; simpl.
  destruct (image_pull E (count_events is_pull s)) as [[]|e]; simpl; [reflexivity|].
  destruct (Exn.isinstance e Exn.ImageNotFound); [reflexivity|].
  destruct (Exn.isinstance e Exn.APIError); [|reflexivity].
  unfold max_retries; simpl.
  destruct (Nat.eqb k 2); reflexivity.
Qed.

(** C5: [_pull_bind_image] makes some number [n] of attempts between 1
    and 3.  Every attempt before the last met a transient API error and was
    followed by the console notice and, with nothing in between, by the
    next attempt.  The last attempt decides the outcome: a successful pull
    lets the run proceed; a definitive image-not-found raises [ImageError]
    at once, on whatever attempt; a transient API error is the last one
    only as the 3rd attempt and raises [ImageError]; any other exception
    is passed on. *)
Theorem pull_bind_image_attempts E s :
  client s = true ->
  let first := count_events is_pull s in
  let image := docker_image s in
  let out := _pull_bind_image E s in
  exists n : nat,
    1 <= n <= 3 /\
    (forall k, k < n - 1 ->
       exists e, classify_pull (image_pull E (first + k)) = PullTransient e) /\
    trace out.2 =
      trace s
      ++ flat_map (fun k => [EImagePull image; EPrint (retry_notice k)])
           (seq 0 (n - 1))
      ++ [EImagePull image] /\
    match classify_pull (image_pull E (first + (n - 1))) with
    | PullDone => out.1 = Ok tt
    | PullMissing =>
        out.1 = Raise (ImageError ("Image " +:+ image +:+ " not found"))
    | PullTransient e =>
        n = 3 /\
        out.1 = Raise (ImageError ("Failed to pull image: " +:+ Exn.str e))
    | PullOther e => out.1 = Raise e
    end.
Proof.
  intros Hc first image out.
  assert (Hout : out = _pull_bind_image E s) by reflexivity.
  clearbody out.
  unfold _pull_bind_image, max_retries in Hout. simpl seq in Hout.
  unfold pull_loop in Hout.
  unfold bind at 1 in Hout. rewrite pull_attempt_run in Hout by exact Hc.
  fold first image in Hout. cbv zeta in Hout.
  destruct (classify_pull (image_pull E first)) as [| |e0|e0] eqn:K0.
  1,2,4: subst out; exists 1; simpl; rewrite Nat.add_0_r, K0;
    (split; [lia|]); (split; [intros k Hk; lia|]); split; reflexivity.
  simpl Nat.eqb in Hout. cbv iota in Hout.
  set (s1 := log (EPrint (retry_notice 0)) (log (EImagePull image) s)) in Hout.
  assert (Hc1 : client s1 = true) by exact Hc.
  assert (N1 : count_events is_pull s1 = first + 1).
  { unfold s1. rewrite !count_events_log. simpl. fold first. lia. }
  unfold bind at 1 in Hout. rewrite pull_attempt_run in Hout by exact Hc1.
  rewrite N1 in Hout.
  change (docker_image s1) with image in Hout. cbv zeta in Hout.
  destruct (classify_pull (image_pull E (first + 1))) as [| |e1|e1] eqn:K1.
  1,2,4: subst out; exists 2; simpl; rewrite K1;
    (split; [lia|]);
    (split; [intros k Hk; assert (k = 0) as -> by lia; rewrite Nat.add_0_r; eauto|]);
    split; [rewrite <- !app_assoc|]; reflexivity.
  simpl Nat.eqb in Hout. cbv iota in Hout.
  set (s2 := log (EPrint (retry_notice 1)) (log (EImagePull image) s1)) in Hout.
  assert (Hc2 : client s2 = true) by exact Hc.
  assert (N2 : count_events is_pull s2 = first + 2).
  { unfold s2. rewrite !count_events_log, N1. simpl. lia. }
  unfold bind at 1 in Hout. rewrite pull_attempt_run in Hout by exact Hc2.
  rewrite N2 in Hout.
  change (docker_image s2) with image in Hout. cbv zeta in Hout.
  exists 3. simpl.
  split; [lia|].
  split.
  { intros k Hk. destruct k as [|[|k]]; [rewrite Nat.add_0_r; eauto|eauto|lia]. }
  destruct (classify_pull (image_pull E (first + 2))) as [| |e2|e2] eqn:K2;
    subst out; simpl; (split; [rewrite <- !app_assoc; reflexivity|]); auto.
Qed.

Lemma pull_bind_image_attempts_witness :
  client connected = true
  /\ exists n : nat,
       1 <= n <= 3
       /\ trace (_pull_bind_image flaky connected).2
          = trace connected
            ++ flat_map
                 (fun k => [EImagePull (docker_image connected);
                            EPrint (retry_notice k)])
                 (seq 0 (n - 1))
            ++ [EImagePull (docker_image connected)].
Proof.
  split; [reflexivity|].
  destruct (pull_bind_image_attempts flaky connected eq_refl)
    as (n & Hn & _ & Htrace & _).
  exists n. split; [exact Hn|exact Htrace].
Defined.

(** ** Finding the public IP *)

(** C3, as stated, fails: a response outside 2xx does not trigger the
    fallback.  The endpoint answers 503, the working shell fallback is
    never run, and the body of the error page is returned as the IP. *)
Lemma get_public_ip_503_no_fallback :
  let out := _get_public_ip echo_down (boot ∅ [] 0) in
  out.1 = Ok "Service Unavailable"
  /\ trace out.2 = [EHttpGet ip_echo_url 3]
  /\ EShell ip_fallback_command ∉ trace out.2.
Proof.
  vm_compute. split; [reflexivity|]. split; [reflexivity|].
  intros H. apply list_elem_of_In in H. simpl in H.
  destruct H as [H|[]]. discriminate H.
Qed.

Lemma run_command_run E cmd s :
  _run_command E cmd s =
    match shell E cmd with
    | Ok p =>
        if (returncode p =? 0)%Z
        then (Ok (Py.strip (stdout p)), log (EShell cmd) s)
        else (Raise (Exn.Raised Exn.DNSConfigError
                       ("Command failed: " +:+ cmd +:+ Py.nl +:+ "Error: "
                        +:+ stderr p)),
              log (EShell cmd) s)
    | Raise e =>
        if Exn.isinstance e Exn.CalledProcessError
        then (Raise (Exn.Raised Exn.DNSConfigError
                       ("Command failed: " +:+ Exn.cmd e +:+ Py.nl
                        +:+ "Error: " +:+ Exn.stderr e)),
              log (EShell cmd) s)
        else (Raise e, log (EShell cmd) s)
    end.
Proof.
  unfold _run_command, try_except, subprocess_run, bind, emit, modify, lift,
    ret, raise; simpl.
  destruct (shell E cmd) as [p|e]; simpl.
  - destruct (returncode p =? 0)%Z; reflexivity.
  - destruct (Exn.isinstance e Exn.CalledProcessError); reflexivity.
Qed.

Lemma own_not_config e : own e = false -> Exn.isinstance e Exn.DNSConfigError = false.
Proof. unfold own. intros H. apply orb_false_elim in H as [H _].
  apply orb_false_elim in H as [H _]. exact H. Qed.

Lemma own_not_called e : own e = false -> Exn.isinstance e Exn.CalledProcessError = false.
Proof. unfold own. intros H. apply orb_false_elim in H as [_ H]. exact H. Qed.

(** C3, amended: the HTTP IP-echo endpoint is queried first, with a
    3-second timeout.  Whatever response comes back, of any status, its
    body is returned and nothing else is tried.  Only a
    [RequestException] raised by the query triggers the fallback, which is
    one shell command (the external IP-lookup utility, or else the first
    address of a local interface); when that exits with status 0 its
    trimmed output is returned.  [IPDiscoveryError] is raised if and only
    if the query raises a [RequestException] and the shell command exits
    with a non-zero status. *)
Theorem get_public_ip_fallback E s :
  (forall e, http_get E = Raise e -> own e = false) ->
  (forall e, shell E ip_fallback_command = Raise e -> own e = false) ->
  let out := _get_public_ip E s in
  let asked := log (EHttpGet ip_echo_url 3) s in
  (forall r, http_get E = Ok r -> out = (Ok (text r), asked)) /\
  (forall e, http_get E = Raise e ->
     Exn.isinstance e Exn.RequestException = false ->
     out = (Raise e, asked)) /\
  (forall e, http_get E = Raise e ->
     Exn.isinstance e Exn.RequestException = true ->
     out.2 = log (EShell ip_fallback_command) asked /\
     (forall p, shell E ip_fallback_command = Ok p -> returncode p = 0%Z ->
        out.1 = Ok (Py.strip (stdout p)))) /\
  (out.1 = Raise IPDiscoveryError <->
     (exists e, http_get E = Raise e
                /\ Exn.isinstance e Exn.RequestException = true)
     /\ (exists p, shell E ip_fallback_command = Ok p /\ returncode p <> 0%Z)).
Proof.
  intros Hh Hs out asked.
  assert (Hout : out =
    match http_get E with
    | Ok r => (Ok (text r), asked)
    | Raise e =>
        if Exn.isinstance e Exn.RequestException
        then match _run_command E ip_fallback_command asked with
             | (Ok a, s') => (Ok a, s')
             | (Raise e', s') =>
                 if Exn.isinstance e' Exn.DNSConfigError
                 then (Raise IPDiscoveryError, s')
                 else (Raise e', s')
             end
        else (Raise e, asked)
    end).
  { subst out. unfold _get_public_ip, try_except at 1, requests_get, bind,
      emit, modify, lift, ret; simpl. fold asked.
    destruct (http_get E) as [r|e]; simpl; [reflexivity|].
    destruct (Exn.isinstance e Exn.RequestException); [|reflexivity].
    unfold try_except.
    destruct (_run_command E ip_fallback_command asked) as [[a|e'] s'];
      [reflexivity|].
    destruct (Exn.isinstance e' Exn.DNSConfigError); reflexivity. }
  clearbody out. rewrite run_command_run in Hout.
  destruct (http_get E) as [r|e] eqn:Hget.
  - subst out. split_and!.
    + intros r' [= <-]. reflexivity.
    + intros e He. discriminate He.
    + intros e He. discriminate He.
    + split.
      * simpl. discriminate.
      * intros [(e & He & _) _]. discriminate He.
  - specialize (Hh e eq_refl).
    destruct (Exn.isinstance e Exn.RequestException) eqn:Hreq.
    + destruct (shell E ip_fallback_command) as [p|e'] eqn:Hsh.
      * destruct (returncode p =? 0)%Z eqn:Hrc.
        -- apply Z.eqb_eq in Hrc. subst out. simpl. split_and!.
           ++ discriminate.
           ++ intros e0 [= <-] Hn. congruence.
           ++ intros e0 _ _. split; [reflexivity|].
              intros p' [= <-] _. reflexivity.
           ++ split; [discriminate|].
              intros [_ (p' & [= <-] & Hp')]. congruence.
        -- apply Z.eqb_neq in Hrc. subst out. simpl. split_and!.
           ++ discriminate.
           ++ intros e0 [= <-] Hn. congruence.
           ++ intros e0 _ _. split; [reflexivity|].
              intros p' [= <-] Hp'. congruence.
           ++ split; [intros _|reflexivity].
              split; [exists e|exists p]; auto.
      * specialize (Hs e' eq_refl).
        rewrite (own_not_called _ Hs) in Hout.
        rewrite (own_not_config _ Hs) in Hout. subst out. simpl.
        split_and!.
        -- discriminate.
        -- intros e0 [= <-] Hn. congruence.
        -- intros e0 _ _. split; [reflexivity|]. discriminate.
        -- split.
           ++ intros [= ->]. vm_compute in Hs. discriminate Hs.
           ++ intros [_ (p' & Hp' & _)]. discriminate Hp'.
    + subst out. simpl. split_and!.
      * discriminate.
      * intros e0 [= <-] _. reflexivity.
      * intros e0 [= <-] Hn. congruence.
      * split.
        -- intros [= ->]. vm_compute in Hh. discriminate Hh.
        -- intros [(e0 & [= <-] & He0) _]. congruence.
Qed.

Lemma get_public_ip_fallback_witness :
  (forall e, http_get echo_unreachable = Raise e -> own e = false)
  /\ (forall e, shell echo_unreachable ip_fallback_command = Raise e ->
        own e = false)
  /\ (_get_public_ip echo_unreachable (boot ∅ [] 0)).1 = Ok "198.51.100.7".
Proof.
  assert (H1 : forall e, http_get echo_unreachable = Raise e -> own e = false).
  { intros e [= <-]. reflexivity. }
  assert (H2 : forall e, shell echo_unreachable ip_fallback_command = Raise e ->
                         own e = false).
  { intros e H. discriminate H. }
  split; [exact H1|]. split; [exact H2|].
  destruct (get_public_ip_fallback echo_unreachable (boot ∅ [] 0) H1 H2)
    as (_ & _ & H3 & _).
  destruct (H3 _ eq_refl eq_refl) as [_ H4].
  exact (H4 _ eq_refl eq_refl).
Defined.

(** ** The serial *)

Lemma digit_of_digit_char d :
  (0 <= d < 10)%Z -> Py.digit_of (digit_char d) = Some d.
Proof.
  intros Hd. unfold Py.digit_of, digit_char.
  rewrite nat_ascii_embedding by lia.
  replace (48 <=? 48 + Z.to_nat d) with true by (symmetry; apply Nat.leb_le; lia).
  replace (48 + Z.to_nat d <=? 57) with true by (symmetry; apply Nat.leb_le; lia).
  cbv [andb]. f_equal. lia.
Qed.

Lemma append_assoc (a b c : string) : (a +:+ b) +:+ c = a +:+ b +:+ c.
Proof. induction a as [|x a IH]; simpl; [reflexivity|]. now rewrite IH. Qed.

Lemma append_nil_r (a : string) : a +:+ "" = a.
Proof. induction a as [|x a IH]; simpl; [reflexivity|]. now rewrite IH. Qed.



Lemma int_go_cons acc c d rest :
  Py.digit_of c = Some d ->
  Py.int_go acc (String c rest) = Py.int_go (acc * 10 + d) rest.
Proof. intros H. cbn [Py.int_go]. rewrite H. reflexivity. Qed.

(** Reading back a zero-padded field continues the number read so far. *)
Lemma int_go_digits w n acc rest :
  (0 <= n < 10 ^ Z.of_nat w)%Z ->
  Py.int_go acc (digits w n +:+ rest)
  = Py.int_go (acc * 10 ^ Z.of_nat w + n) rest.
Proof.
  revert n acc rest. induction w as [|w IH]; intros n acc rest Hn.
  - change (digits 0 n +:+ rest) with rest.
    change (10 ^ Z.of_nat 0)%Z with 1%Z in *. f_equal. lia.
  - rewrite Nat2Z.inj_succ, Z.pow_succ_r in * by lia.
    change (digits (S w) n)
      with (digits w (n / 10)%Z +:+ String (digit_char (n mod 10)%Z) "").
    rewrite append_assoc. rewrite IH.
    + change (String (digit_char (n mod 10)%Z) "" +:+ rest)
        with (String (digit_char (n mod 10)%Z) rest).
      rewrite (int_go_cons _ _ (n mod 10)%Z)
        by (apply digit_of_digit_char, Z.mod_pos_bound; lia).
      f_equal. pose proof (Z.div_mod n 10 ltac:(lia)). lia.
    + split; [apply Z.div_pos; lia|].
      apply Z.div_lt_upper_bound; lia.
Qed.

Lemma digits_nonempty w n rest :
  exists c r, digits (S w) n +:+ rest = String c r.
Proof.
  revert n rest. induction w as [|w IH]; intros n rest.
  - exists (digit_char (n mod 10)%Z), rest. reflexivity.
  - change (digits (S (S w)) n)
      with (digits (S w) (n / 10)%Z +:+ String (digit_char (n mod 10)%Z) "").
    rewrite append_assoc. apply IH.
Qed.

Lemma int_of_strftime t :
  valid_datetime t -> Py.int_of_str (strftime_YmdH t) = Some (YYYYMMDDHH t).
Proof.
  intros (Hy & Hm & Hd & Hh).
  destruct (digits_nonempty 3 (year t)
              (digits 2 (month t) +:+ digits 2 (day t) +:+ digits 2 (hour t)))
    as (c & r & Hcr).
  change (strftime_YmdH t = String c r) in Hcr.
  unfold Py.int_of_str. rewrite Hcr, <- Hcr. clear c r Hcr.
  unfold strftime_YmdH.
  rewrite int_go_digits by (change (10 ^ Z.of_nat 4)%Z with 10000%Z; lia).
  rewrite int_go_digits by (change (10 ^ Z.of_nat 2)%Z with 100%Z; lia).
  rewrite int_go_digits by (change (10 ^ Z.of_nat 2)%Z with 100%Z; lia).
  rewrite <- (append_nil_r (digits 2 (hour t))).
  rewrite int_go_digits by (change (10 ^ Z.of_nat 2)%Z with 100%Z; lia).
  change (10 ^ Z.of_nat 4)%Z with 10000%Z.
  change (10 ^ Z.of_nat 2)%Z with 100%Z.
  cbn [Py.int_go]. f_equal. unfold YYYYMMDDHH. lia.
Qed.

Lemma get_serial_run E s :
  valid_datetime (utcnow E (count_events is_utcnow s)) ->
  _get_serial E s
  = (Ok (YYYYMMDDHH (utcnow E (count_events is_utcnow s))), log EUtcNow s).
Proof.
  intros Hv. unfold _get_serial, datetime_utcnow, bind, gets, emit, modify,
    ret.
  rewrite (int_of_strftime _ Hv). reflexivity.
Qed.



(** ** Replacing the container *)

Lemma named_after_launch cs c :
  existsb (fun x => String.eqb (c_name x) container_name) cs = false ->
  c_name c = container_name ->
  named_dns_server (cs ++ [c]) = [c].
Proof.
  intros Hno Hc. unfold named_dns_server.
  rewrite List.filter_app. simpl. rewrite Hc, String.eqb_refl.
  replace (List.filter _ cs) with (@nil container); [reflexivity|].
  symmetry. induction cs as [|x cs IH]; [reflexivity|].
  simpl in *. apply orb_false_elim in Hno as [Hx Hcs].
  rewrite Hx. apply IH, Hcs.
Qed.

Lemma find_name_unique cs n old x :
  NoDup (map c_name cs) ->
  List.find (fun c => String.eqb (c_name c) n) cs = Some old ->
  In x cs -> c_name x = n -> x = old.
Proof.
  induction cs as [|y cs IH]; intros Hnd Hfind Hin Hname; [destruct Hin|].
  simpl in Hfind. apply NoDup_cons in Hnd as [Hy Hnd].
  destruct (String.eqb (c_name y) n) eqn:Hyn.
  - injection Hfind as <-. apply String.eqb_eq in Hyn.
    destruct Hin as [->|Hin]; [reflexivity|].
    exfalso. apply Hy. rewrite Hyn, <- Hname.
    apply list_elem_of_In, in_map, Hin.
  - destruct Hin as [->|Hin].
    + rewrite Hname, String.eqb_refl in Hyn. discriminate.
    + apply IH; assumption.
Qed.

Lemma no_name_after_remove cs old :
  NoDup (map c_name cs) ->
  List.find (fun c => String.eqb (c_name c) container_name) cs = Some old ->
  existsb (fun x => String.eqb (c_name x) container_name)
    (List.filter (fun x => negb (Nat.eqb (c_id x) (c_id old))) cs) = false.
Proof.
  intros Hnd Hfind.
  destruct (existsb _ _) eqn:Hex; [|reflexivity].
  apply existsb_exists in Hex as (x & Hx & Hname).
  apply List.filter_In in Hx as [Hx Hid].
  apply String.eqb_eq in Hname.
  rewrite (find_name_unique _ _ _ _ Hnd Hfind Hx Hname) in Hid.
  rewrite Nat.eqb_refl in Hid. discriminate.
Qed.

Lemma find_id_present cs (old : container) :
  In old cs ->
  exists c', List.find (fun c' => Nat.eqb (c_id c') (c_id old)) cs = Some c'.
Proof.
  intros Hin.
  destruct (List.find _ cs) as [c'|] eqn:Hf; [eauto|].
  apply (List.find_none _ _ Hf) in Hin. rewrite Nat.eqb_refl in Hin.
  discriminate.
Qed.

Lemma containers_log ev s : containers (log ev s) = containers s.
Proof. reflexivity. Qed.

Lemma next_id_log ev s : next_id (log ev s) = next_id s.
Proof. reflexivity. Qed.

Lemma cleanup_existing_run E s :
  client s = true ->
  cleanup_existing E s =
    let sg := log (EContainerGet container_name) s in
    match get_fault E with
    | Some e =>
        if Exn.isinstance e Exn.NotFound then (Ok tt, sg) else (Raise e, sg)
    | None =>
        match List.find (fun c => String.eqb (c_name c) container_name)
                (containers s) with
        | None => (Ok tt, sg)
        | Some old =>
            let sr := log (EContainerRemove (c_id old) true) sg in
            match remove_fault E with
            | Some e =>
                if Exn.isinstance e Exn.NotFound then (Ok tt, sr)
                else (Raise e, sr)
            | None =>
                (Ok tt,
                 set_containers
                   (List.filter (fun x => negb (Nat.eqb (c_id x) (c_id old)))
                      (containers s))
                   (next_id s) sr)
            end
        end
    end.
Proof.
  intros Hc.
  unfold cleanup_existing, containers_get, container_remove.
  cbv [bind try_except via_client gets emit modify lift ret raise].
  rewrite Hc. cbv beta iota zeta.
  destruct (get_fault E) as [e|].
  { destruct (Exn.isinstance e Exn.NotFound); reflexivity. }
  rewrite containers_log.
  destruct (List.find _ (containers s)) as [old|] eqn:Hfind.
  2:{ reflexivity. }
  destruct (remove_fault E) as [e|].
  { destruct (Exn.isinstance e Exn.NotFound); reflexivity. }
  rewrite !containers_log.
  destruct (find_id_present (containers s) old) as [c' Hc'].
  { apply (List.find_some _ _ Hfind). }
  rewrite Hc'. rewrite andb_false_r. reflexivity.
Qed.

Lemma start_new_run E s :
  client s = true ->
  start_new E s =
    let args := launch_args (docker_image s) (volume_path s) in
    let sl := log (EContainerRun args) s in
    match run_fault_of E with
    | CreateFails e => (Raise e, sl)
    | fault =>
        if existsb (fun c => String.eqb (c_name c) container_name)
             (containers s)
        then (Raise (Exn.Raised Exn.APIError
                       ("Conflict. The container name is already in use: "
                        +:+ container_name)), sl)
        else
          match fault with
          | StartFails e =>
              (Raise e,
               set_containers
                 (containers s
                  ++ [{| c_id := next_id s; c_running := false;
                         c_args := args |}])
                 (S (next_id s)) sl)
          | _ =>
              (Ok tt,
               set_containers (containers s ++ [launched s])
                 (S (next_id s)) sl)
          end
    end.
Proof.
  intros Hc.
  unfold start_new, containers_run.
  cbv [bind try_except via_client gets emit modify lift ret raise].
  rewrite Hc. cbv beta iota zeta.
  change (ra_name (launch_args (docker_image s) (volume_path s)))
    with container_name.
  destruct (run_fault_of E) as [|e|e]; cbv beta iota zeta;
    rewrite ?containers_log; try reflexivity;
    destruct (existsb _ (containers s)); reflexivity.
Qed.
Lemma start_container_ok_iff E s s2 :
  _start_container E s = (Ok tt, s2) <->
  exists s1, cleanup_existing E s = (Ok tt, s1) /\ start_new E s1 = (Ok tt, s2).
Proof.
  unfold _start_container. cbv [try_except bind raise].
  destruct (cleanup_existing E s) as [[[]|e] s1].
  - destruct (start_new E s1) as [[[]|e] s2'] eqn:Hn.
    + split.
      * intros [= <-]. exists s1. split; [reflexivity|exact Hn].
      * intros (s1' & [= <-] & H). congruence.
    + split.
      * destruct (Exn.isinstance e Exn.APIError); discriminate.
      * intros (s1' & [= <-] & H). congruence.
  - split.
    + destruct (Exn.isinstance e Exn.APIError); discriminate.
    + intros (s1' & H & _). discriminate H.
Qed.

Lemma find_existsb_name cs old :
  List.find (fun c => String.eqb (c_name c) container_name) cs = Some old ->
  existsb (fun c => String.eqb (c_name c) container_name) cs = true.
Proof.
  intros H. apply List.find_some in H as [Hin Hn].
  apply existsb_exists. eauto.
Qed.

Lemma start_new_ok E s1 s2 :
  client s1 = true ->
  start_new E s1 = (Ok tt, s2) ->
  existsb (fun c => String.eqb (c_name c) container_name) (containers s1)
  = false
  /\ s2 = set_containers (containers s1 ++ [launched s1]) (S (next_id s1))
            (log (EContainerRun (launch_args (docker_image s1) (volume_path s1)))
               s1).
Proof.
  intros Hc. rewrite start_new_run by exact Hc. cbv zeta.
  destruct (run_fault_of E) as [|e|e]; [|discriminate|];
    destruct (existsb _ (containers s1)); try discriminate.
  intros [= <-]. split; reflexivity.
Qed.

(** How the clean-up can end well: nothing by that name was found, or
    the one found was removed, or the engine said [NotFound] on the way. *)
Lemma cleanup_existing_ok E s s1 :
  client s = true ->
  cleanup_existing E s = (Ok tt, s1) ->
  let sg := log (EContainerGet container_name) s in
  (s1 = sg /\
   (List.find (fun c => String.eqb (c_name c) container_name) (containers s)
    = None \/ get_fault E <> None))
  \/ exists old,
       List.find (fun c => String.eqb (c_name c) container_name)
         (containers s) = Some old
       /\ get_fault E = None
       /\ let sr := log (EContainerRemove (c_id old) true) sg in
          (s1 = sr /\ remove_fault E <> None)
          \/ (remove_fault E = None /\
              s1 = set_containers
                     (List.filter
                        (fun x => negb (Nat.eqb (c_id x) (c_id old)))
                        (containers s))
                     (next_id s) sr).
Proof.
  intros Hc. rewrite cleanup_existing_run by exact Hc. cbv zeta.
  destruct (get_fault E) as [eg|].
  { destruct (Exn.isinstance eg Exn.NotFound); [|discriminate].
    intros [= <-]. left. split; [reflexivity|]. right. discriminate. }
  destruct (List.find _ (containers s)) as [old|] eqn:Hfind.
  2:{ intros [= <-]. left. split; [reflexivity|]. left. reflexivity. }
  destruct (remove_fault E) as [er|].
  { destruct (Exn.isinstance er Exn.NotFound); [|discriminate].
    intros [= <-]. right. exists old. split_and!; [reflexivity..|].
    left. split; [reflexivity|discriminate]. }
  intros [= <-]. right. exists old. split_and!; [reflexivity..|].
  right. split; reflexivity.
Qed.

(** C8: whenever [_start_container] succeeds, exactly one container
    bears the name [dns-server] afterwards, and it is the one just
    launched.  A container of that name found beforehand, running or not,
    was removed with [force=True] before the launch; when none was found
    the launch follows the lookup directly, and that is no error.  And
    when the engine answers every call and names are unique, as the engine
    keeps them, the replacement does succeed, with or without a container
    to replace. *)
Theorem start_container_replaces E s :
  client s = true ->
  let out := _start_container E s in
  let run := EContainerRun (launch_args (docker_image s) (volume_path s)) in
  (out.1 = Ok tt ->
     named_dns_server (containers out.2) = [launched s]
     /\ (forall old,
           List.find (fun c => String.eqb (c_name c) container_name)
             (containers s) = Some old ->
           get_fault E = None ->
           trace out.2
           = trace s ++ [EContainerGet container_name;
                         EContainerRemove (c_id old) true; run]
           /\ containers out.2
              = List.filter (fun x => negb (Nat.eqb (c_id x) (c_id old)))
                  (containers s) ++ [launched s])
     /\ (List.find (fun c => String.eqb (c_name c) container_name)
           (containers s) = None ->
         trace out.2 = trace s ++ [EContainerGet container_name; run]
         /\ containers out.2 = containers s ++ [launched s]))
  /\ (engine_answers E -> NoDup (map c_name (containers s)) ->
      out.1 = Ok tt).
Proof.
  intros Hc out run. split.
  - intros Hok.
    assert (Hrun : _start_container E s = (Ok tt, out.2)).
    { rewrite <- Hok. subst out. destruct (_start_container E s); reflexivity. }
    apply start_container_ok_iff in Hrun as (s1 & Hclean & Hnew).
    apply (cleanup_existing_ok E s s1 Hc) in Hclean. cbv zeta in Hclean.
    destruct Hclean as [[-> Hwhy]|(old & Hfind & Hgf & [[-> Hrf]|[Hrf ->]])].
    + apply start_new_ok in Hnew as [Hno Hs2]; [|exact Hc].
      rewrite containers_log in Hno. rewrite Hs2.
      split_and!.
      * apply named_after_launch; [exact Hno|reflexivity].
      * intros old Hfind _. apply find_existsb_name in Hfind. congruence.
      * intros _. split; [|reflexivity].
        simpl. rewrite <- app_assoc. reflexivity.
    + apply start_new_ok in Hnew as [Hno Hs2]; [|exact Hc].
      rewrite !containers_log in Hno.
      apply find_existsb_name in Hfind. congruence.
    + apply start_new_ok in Hnew as [Hno Hs2]; [|exact Hc].
      rewrite Hs2. split_and!.
      * apply named_after_launch; [exact Hno|reflexivity].
      * intros old' Hfind' _. assert (old' = old) as -> by congruence.
        split; [|reflexivity].
        simpl. rewrite <- !app_assoc. reflexivity.
      * intros Hnone. congruence.
  - intros (Hgf & Hrf & Hrun) Hnd.
    assert (Hgoal : exists s2, _start_container E s = (Ok tt, s2)).
    { setoid_rewrite start_container_ok_iff.
      rewrite cleanup_existing_run by exact Hc. cbv zeta.
      rewrite Hgf.
      destruct (List.find _ (containers s)) as [old|] eqn:Hfind.
      - rewrite Hrf. eexists. eexists. split; [reflexivity|].
        rewrite start_new_run by exact Hc. cbv zeta. rewrite Hrun.
        change (containers (set_containers ?cs _ _)) with cs.
        rewrite (no_name_after_remove _ _ Hnd Hfind). reflexivity.
      - eexists. eexists. split; [reflexivity|].
        rewrite start_new_run by exact Hc. cbv zeta. rewrite Hrun.
        rewrite containers_log.
        replace (existsb _ (containers s)) with false; [reflexivity|].
        symmetry. destruct (existsb _ (containers s)) eqn:Hex; [|reflexivity].
        apply existsb_exists in Hex as (x & Hx & Hn).
        apply (List.find_none _ _ Hfind) in Hx. congruence. }
    destruct Hgoal as (s2 & Hs2). subst out. rewrite Hs2. reflexivity.
Qed.

Lemma start_container_replaces_witness :
  client connected = true
  /\ named_dns_server (containers (_start_container calm connected).2)
     = [launched connected]
  /\ left_over ∉ containers (_start_container calm connected).2.
Proof.
  split; [reflexivity|].
  destruct (start_container_replaces calm connected eq_refl) as [H _].
  destruct (H eq_refl) as (H1 & H2 & _).
  split; [exact H1|].
  destruct (H2 left_over eq_refl eq_refl) as [_ ->].
  intros Hin. apply list_elem_of_In in Hin. simpl in Hin.
  destruct Hin as [Heq|[]]. discriminate Heq.
Defined.
Lemma zone_path_inj dir a b : zone_path dir a = zone_path dir b -> a = b.
Proof.
  unfold zone_path, path_join. intros H.
  apply String.app_inj in H. apply (String.app_inj "/") in H.
  apply (String.app_inj "db.") in H. exact H.
Qed.

Lemma zone_path_not_conf dir a : zone_path dir a <> path_join dir "named.conf".
Proof.
  unfold zone_path, path_join. intros H.
  apply String.app_inj in H. apply (String.app_inj "/") in H.
  discriminate H.
Qed.

Lemma generate_zone_file_run E s apex :
  clock_valid E ->
  is_Some (Py.get apex (dns_records s)) ->
  _generate_zone_file E apex s
  = (Ok (zone_at E (count_events is_utcnow s) (public_ip s) (dns_records s)
           apex),
     log EUtcNow s).
Proof.
  intros Hclock [rs Hget].
  unfold _generate_zone_file. cbv [bind gets]. rewrite Hget.
  rewrite (get_serial_run E s (Hclock _)).
  unfold zone_at. rewrite Hget. reflexivity.
Qed.

Lemma write_text_run E path content s :
  write_text E path content s =
    let s1 := log (EWriteText path content) s in
    match write_fault E path with
    | Some (e, Some part) => (Raise e, set_files (<[path := part]> (files s)) s1)
    | Some (e, None) => (Raise e, s1)
    | None => (Ok tt, set_files (<[path := content]> (files s)) s1)
    end.
Proof.
  unfold write_text. cbv [bind emit modify raise].
  destruct (write_fault E path) as [[e [part|]]|]; reflexivity.
Qed.

Lemma count_utcnow_write path content s :
  count_events is_utcnow (log (EWriteText path content) s)
  = count_events is_utcnow s.
Proof. rewrite count_events_log. simpl. lia. Qed.

Lemma write_zone_run E dir d s :
  clock_valid E ->
  is_Some (Py.get d (dns_records s)) ->
  write_zone E dir d s =
    let zone := zone_at E (count_events is_utcnow s) (public_ip s)
                  (dns_records s) d in
    let s1 := log (EWriteText (zone_path dir d) zone) (log EUtcNow s) in
    match write_fault E (zone_path dir d) with
    | Some (e, Some part) =>
        (Raise e, set_files (<[zone_path dir d := part]> (files s)) s1)
    | Some (e, None) => (Raise e, s1)
    | None => (Ok tt, set_files (<[zone_path dir d := zone]> (files s)) s1)
    end.
Proof.
  intros Hclock Hget. unfold write_zone. cbv [bind].
  rewrite generate_zone_file_run by assumption.
  rewrite write_text_run. reflexivity.
Qed.

Lemma for_each_cons {A} (x : A) l body s :
  for_each (x :: l) body s =
    match body x s with
    | (Ok _, s') => for_each l body s'
    | (Raise e, s') => (Raise e, s')
    end.
Proof. reflexivity. Qed.

(** The loop over the zones: it gets through the apexes [good], whose
    writes meet no fault, and either ends there or stops at the next
    apex, whose write fails. *)
Lemma zone_loop E dir good rest s :
  clock_valid E ->
  (forall d, In d (good ++ rest) -> is_Some (Py.get d (dns_records s))) ->
  (forall d, In d good -> write_fault E (zone_path dir d) = None) ->
  NoDup (good ++ rest) ->
  match rest with
  | [] => True
  | d :: _ => write_fault E (zone_path dir d) <> None
  end ->
  let out := for_each (good ++ rest) (write_zone E dir) s in
  let n := count_events is_utcnow s in
  out.1 = match rest with
          | [] => Ok tt
          | d :: _ =>
              match write_fault E (zone_path dir d) with
              | Some (e, _) => Raise e
              | None => Ok tt
              end
          end
  /\ trace out.2
     = trace s ++ zone_writes E dir n (public_ip s) (dns_records s)
                    (good ++ take 1 rest)
  /\ (forall i d, good !! i = Some d ->
        files out.2 !! zone_path dir d
        = Some (zone_at E (n + i) (public_ip s) (dns_records s) d))
  /\ (forall p, (forall d, In d (good ++ take 1 rest) -> p <> zone_path dir d) ->
        files out.2 !! p = files s !! p)
  /\ dirs out.2 = dirs s
  /\ dns_records out.2 = dns_records s
  /\ public_ip out.2 = public_ip s.
Proof.
  intros Hclock. revert s.
  induction good as [|d good IH]; intros s Hget Hok Hnd Hrest out n.
  - simpl app in *. destruct rest as [|d rest].
    + subst out. simpl. split_and!; try reflexivity.
      * rewrite app_nil_r. reflexivity.
      * intros i d Hi. discriminate Hi.
    + assert (Hout : out = for_each (d :: rest) (write_zone E dir) s)
        by reflexivity.
      clearbody out. rewrite for_each_cons in Hout.
      rewrite write_zone_run in Hout;
        [|exact Hclock|apply Hget; left; reflexivity].
      cbv zeta in Hout. fold n in Hout.
      destruct (write_fault E (zone_path dir d)) as [[e [part|]]|] eqn:Hf;
        [| |congruence]; subst out; simpl.
      * split_and!; try reflexivity.
        -- rewrite <- app_assoc. reflexivity.
        -- intros i d' Hi. discriminate Hi.
        -- intros p Hp. apply lookup_insert_ne. intros Heq.
           apply (Hp d); [left; reflexivity|]. symmetry. exact Heq.
      * split_and!; try reflexivity.
        -- rewrite <- app_assoc. reflexivity.
        -- intros i d' Hi. discriminate Hi.
  - assert (Hout : out = for_each (d :: good ++ rest) (write_zone E dir) s)
      by reflexivity.
    clearbody out. rewrite for_each_cons in Hout.
    rewrite write_zone_run in Hout;
      [|exact Hclock|apply Hget; left; reflexivity].
    cbv zeta in Hout. fold n in Hout.
    rewrite (Hok d) in Hout by (left; reflexivity).
    set (s1 := set_files _ _) in Hout.
    apply NoDup_cons in Hnd as [Hd Hnd].
    specialize (IH s1).
    destruct IH as (I1 & I2 & I3 & I4 & I5 & I6 & I7).
    { intros d' Hd'. apply Hget. right. exact Hd'. }
    { intros d' Hd'. apply Hok. right. exact Hd'. }
    { exact Hnd. }
    { exact Hrest. }
    rewrite <- Hout in I1, I2, I3, I4, I5, I6, I7.
    assert (Hn1 : count_events is_utcnow s1 = S n).
    { unfold s1. change (count_events is_utcnow (set_files ?f ?x))
                   with (count_events is_utcnow x).
      rewrite count_utcnow_write, count_events_log. simpl. fold n. lia. }
    rewrite Hn1 in I2, I3.
    split_and!.
    + exact I1.
    + rewrite I2. unfold s1. simpl. rewrite <- !app_assoc. reflexivity.
    + intros [|i] d' Hi.
      * injection Hi as <-. rewrite I4.
        -- unfold s1. simpl. rewrite lookup_insert_eq, Nat.add_0_r.
           reflexivity.
        -- intros d' Hd' Heq. apply zone_path_inj in Heq. subst d'.
           apply Hd. apply list_elem_of_In.
           apply in_app_or in Hd' as [Hd'|Hd'];
             apply in_or_app; [left; exact Hd'|right].
           destruct rest as [|r rest]; [destruct Hd'|].
           destruct Hd' as [<-|[]]. left. reflexivity.
      * rewrite (I3 i d' Hi). f_equal. f_equal. lia.
    + intros p Hp. rewrite I4.
      * unfold s1. simpl. apply lookup_insert_ne. intros Heq.
        apply (Hp d); [left; reflexivity|]. symmetry. exact Heq.
      * intros d' Hd'. apply Hp. right. exact Hd'.
    + rewrite I5. reflexivity.
    + rewrite I6. reflexivity.
    + rewrite I7. reflexivity.
Qed.
Lemma get_of_keys {V} (m : Py.dict V) d :
  In d (Py.keys m) -> is_Some (Py.get d m).
Proof.
  unfold Py.keys. induction m as [|[k v] m IH]; simpl; [intros []|].
  intros [->|Hin].
  - rewrite String.eqb_refl. eauto.
  - destruct (String.eqb k d); [eauto|]. apply IH, Hin.
Qed.

Lemma path_mkdir_run E path s :
  path_mkdir E path s =
    match mkdir_fault E with
    | Some e => (Raise e, log (EMkdir path) s)
    | None => (Ok tt, set_dirs (dirs s ∪ list_to_set (with_parents path))
                        (log (EMkdir path) s))
    end.
Proof.
  unfold path_mkdir. cbv [bind emit modify raise].
  destruct (mkdir_fault E); reflexivity.
Qed.



Lemma noon_valid : valid_datetime noon.
Proof. unfold valid_datetime. simpl. lia. Qed.

Lemma two_zones_keys_nodup : NoDup (Py.keys (dns_records two_zones)).
Proof.
  apply NoDup_cons. split.
  - intros H. apply list_elem_of_In in H. simpl in H.
    destruct H as [H|[]]. discriminate H.
  - apply NoDup_cons. split; [|apply NoDup_nil_2].
    intros H. apply list_elem_of_In in H. destruct H.
Qed.







Ltac str_norm :=
  unfold Py.nl, Py.dq; rewrite ?append_assoc; cbn [String.append];
  rewrite ?append_assoc.

Lemma join_cons sep x y l :
  Py.join sep (x :: y :: l) = x +:+ sep +:+ Py.join sep (y :: l).
Proof. reflexivity. Qed.





(** ** The ordered dict *)

Lemma get_set_eq {V} k (v : V) d : Py.get k (Py.set k v d) = Some v.
Proof.
  induction d as [|[k' v'] d IH]; simpl.
  - rewrite String.eqb_refl. reflexivity.
  - destruct (String.eqb k' k) eqn:Hk; simpl; rewrite Hk; [reflexivity|exact IH].
Qed.

Lemma get_set_ne {V} k k' (v : V) d :
  k <> k' -> Py.get k' (Py.set k v d) = Py.get k' d.
Proof.
  intros Hne. induction d as [|[k0 v0] d IH]; simpl.
  - destruct (String.eqb_spec k k'); [contradiction|reflexivity].
  - destruct (String.eqb_spec k0 k) as [->|Hk0]; simpl.
    + destruct (String.eqb_spec k k'); [contradiction|reflexivity].
    + destruct (String.eqb k0 k'); [reflexivity|exact IH].
Qed.

Lemma get_none_keys {V} k (d : Py.dict V) :
  Py.get k d = None <-> ~ In k (Py.keys d).
Proof.
  unfold Py.keys. induction d as [|[k' v] d IH]; simpl; [tauto|].
  destruct (String.eqb_spec k' k) as [->|Hne].
  - split; [discriminate|]. intros H. exfalso. apply H. left. reflexivity.
  - rewrite IH. tauto.
Qed.

Lemma get_some_in {V} k (v : V) d : Py.get k d = Some v -> In (k, v) d.
Proof.
  induction d as [|[k' v'] d IH]; simpl; [discriminate|].
  destruct (String.eqb_spec k' k) as [->|Hne].
  - intros [= ->]. left. reflexivity.
  - intros H. right. apply IH, H.
Qed.

Lemma set_fresh {V} k (v : V) d :
  ~ In k (Py.keys d) -> Py.set k v d = d ++ [(k, v)].
Proof.
  unfold Py.keys. induction d as [|[k' v'] d IH]; simpl; intros H; [reflexivity|].
  destruct (String.eqb_spec k' k) as [->|Hne]; [tauto|].
  rewrite IH by tauto. reflexivity.
Qed.

Lemma keys_set {V} k (v : V) d :
  Py.keys (Py.set k v d)
  = match Py.get k d with
    | Some _ => Py.keys d
    | None => Py.keys d ++ [k]
    end.
Proof.
  induction d as [|[k' v'] d IH]; [reflexivity|].
  cbn [Py.set Py.get].
  destruct (String.eqb_spec k' k) as [->|Hne]; [reflexivity|].
  change (Py.keys ((k', v') :: Py.set k v d))
    with (k' :: Py.keys (Py.set k v d)).
  rewrite IH. destruct (Py.get k d); reflexivity.
Qed.

(** Assignment keeps the keys of a dict distinct. *)
Lemma set_nodup {V} k (v : V) d :
  NoDup (Py.keys d) -> NoDup (Py.keys (Py.set k v d)).
Proof.
  intros Hnd. rewrite keys_set. destruct (Py.get k d) eqn:Hg; [exact Hnd|].
  apply NoDup_app. split_and!; [exact Hnd| |apply NoDup_singleton].
  intros x Hx Hx'. apply list_elem_of_In in Hx.
  apply list_elem_of_In in Hx'. destruct Hx' as [<-|[]].
  apply get_none_keys in Hg. contradiction.
Qed.

Lemma collect_from_nodup pairs (acc : Py.dict string) :
  NoDup (Py.keys acc) ->
  NoDup (Py.keys (fold_left (fun d p => Py.set p.1 p.2 d) pairs acc)).
Proof.
  revert acc. induction pairs as [|[h ip] pairs IH]; intros acc Hnd; [exact Hnd|].
  simpl. apply IH, set_nodup, Hnd.
Qed.

Lemma collect_nodup pairs : NoDup (Py.keys (collect pairs)).
Proof. apply collect_from_nodup, NoDup_nil_2. Qed.


(** ** Grouping by apex *)

Lemma add_record_get all h ip d :
  Py.get d (add_record all (h, ip))
  = if String.eqb (apex h) d
    then Some (Py.set h ip (default [] (Py.get (apex h) all)))
    else Py.get d all.
Proof.
  unfold add_record, Py.setdefault. cbv beta iota zeta delta [fst snd].
  change (@Py.get (list (string * string)) (apex h) all)
    with (@Py.get (Py.dict string) (apex h) all).
  destruct (Py.get (apex h) all) as [inner|] eqn:Hg; cbn [default id].
  - destruct (String.eqb_spec (apex h) d) as [<-|Hne].
    + apply get_set_eq.
    + apply get_set_ne, Hne.
  - destruct (String.eqb_spec (apex h) d) as [<-|Hne].
    + apply get_set_eq.
    + rewrite !get_set_ne by exact Hne. reflexivity.
Qed.


Lemma grouped_from_get records :
  forall (acc : Py.dict (Py.dict string)) d,
    NoDup (Py.keys records) ->
    (forall h d' inner, In h (Py.keys records) ->
       Py.get d' acc = Some inner -> ~ In h (Py.keys inner)) ->
    Py.get d (fold_left add_record records acc)
    = match Py.get d acc,
            List.filter (fun r => String.eqb (apex r.1) d) records with
      | None, [] => None
      | None, f => Some f
      | Some inner, f => Some (inner ++ f)
      end.
Proof.
  induction records as [|[h ip] records IH]; intros acc d Hnd Hfresh.
  - simpl. destruct (Py.get d acc); [rewrite app_nil_r|]; reflexivity.
  - change (Py.keys ((h, ip) :: records)) with (h :: Py.keys records) in *.
    apply NoDup_cons in Hnd as [Hh Hnd].
    simpl fold_left. rewrite IH; [|exact Hnd|].
    + rewrite add_record_get. cbn [List.filter fst].
      assert (Hset : Py.set h ip (default [] (Py.get (apex h) acc))
                     = default [] (Py.get (apex h) acc) ++ [(h, ip)]).
      { apply set_fresh. destruct (Py.get (apex h) acc) as [inner|] eqn:Hg.
        - apply (Hfresh h (apex h) inner); [left; reflexivity|exact Hg].
        - intros []. }
      rewrite Hset.
      destruct (String.eqb_spec (apex h) d) as [<-|Hne].
      * destruct (Py.get (apex h) acc) as [inner|]; cbn [default].
        -- rewrite <- app_assoc. reflexivity.
        -- reflexivity.
      * reflexivity.
    + intros h' d' inner Hh' Hg. rewrite add_record_get in Hg.
      destruct (String.eqb (apex h) d').
      * injection Hg as <-.
        assert (Hset : Py.set h ip (default [] (Py.get (apex h) acc))
                       = default [] (Py.get (apex h) acc) ++ [(h, ip)]).
        { apply set_fresh. destruct (Py.get (apex h) acc) as [inner|] eqn:Hg.
          - apply (Hfresh h (apex h) inner); [left; reflexivity|exact Hg].
          - intros []. }
        rewrite Hset. unfold Py.keys. rewrite fmap_app.
        intros Hin. apply in_app_or in Hin as [Hin|[<-|[]]].
        -- destruct (Py.get (apex h) acc) as [inner|] eqn:Hg; [|destruct Hin].
           apply (Hfresh h' (apex h) inner); [right; exact Hh'|exact Hg|exact Hin].
        -- apply Hh, list_elem_of_In, Hh'.
      * apply (Hfresh h' d' inner); [right; exact Hh'|exact Hg].
Qed.

(** The record mapping of an apex holds the records of that apex, in the
    order of the input. *)
Lemma grouped_get records d :
  NoDup (Py.keys records) ->
  Py.get d (grouped records)
  = match List.filter (fun r => String.eqb (apex r.1) d) records with
    | [] => None
    | f => Some f
    end.
Proof.
  intros Hnd. unfold grouped. rewrite grouped_from_get; [reflexivity|exact Hnd|].
  intros h d' inner _ H. discriminate H.
Qed.





(** ** The order of the stages *)

Lemma start_by_stages E records s :
  start E records s
  = start_outcome (run_stages (start_stages E records) s).
Proof.
  assert (Hh : forall (e : Exn.t) (s1 : state),
    match
      (if Exn.isinstance e Exn.DNSConfigError
          || Exn.isinstance e Exn.DockerError
       then Some (fun s : state =>
              (Raise (A:=option string) (Exn.Exit 1),
               log (EPrintErr (Py.nl +:+ cross +:+ " Error: " +:+ Exn.str e)) s))
       else if Exn.isinstance e Exn.KeyboardInterrupt
       then Some (fun s : state =>
              (Raise (Exn.Exit 130),
               log (EPrintErr (Py.nl +:+ "Operation cancelled by user")) s))
       else None)
    with
    | Some k => k s1
    | None => (Raise e, s1)
    end = start_outcome (Raise e, s1)).
  { intros e s1. unfold start_outcome.
    destruct (_ || _); [reflexivity|].
    destruct (Exn.isinstance e Exn.KeyboardInterrupt); reflexivity. }
  unfold start, start_stages, run_stages.
  cbv [try_except bind ret gets modify print eprint emit sys_exit raise].
  destruct (_get_public_ip E s) as [[ip|e] s1]; [|apply Hh].
  destruct (_setup_docker E _) as [[[]|e] s2]; [|apply Hh].
  destruct (docker_from_env E s2) as [[c|e] s3]; [|apply Hh].
  destruct (_pull_bind_image E _) as [[[]|e] s4]; [|apply Hh].
  destruct (organize records s4) as [[[]|e] s5]; [|apply Hh].
  destruct (_generate_zone_files E s5) as [[[]|e] s6]; [|apply Hh].
  destruct (_start_container E s6) as [[[]|e] s7]; [reflexivity|apply Hh].
Qed.

(** *** Which events a computation adds *)

Lemma emits_weaken {A} (P Q : event -> Prop) (m : M A) :
  (forall ev, P ev -> Q ev) -> emits P m -> emits Q m.
Proof.
  intros HPQ Hm s. destruct (Hm s) as (evs & Ht & HP).
  exists evs. split; [exact Ht|]. eapply List.Forall_impl; eauto.
Qed.

Lemma emits_ret {A} P (a : A) : emits P (ret a).
Proof. intros s. exists []. rewrite app_nil_r. split; [reflexivity|constructor]. Qed.

Lemma emits_raise {A} P e : emits P (raise (A:=A) e).
Proof. intros s. exists []. rewrite app_nil_r. split; [reflexivity|constructor]. Qed.

Lemma emits_gets {A} P (f : state -> A) : emits P (gets f).
Proof. intros s. exists []. rewrite app_nil_r. split; [reflexivity|constructor]. Qed.

Lemma emits_lift {A} P (r : result A) : emits P (lift r).
Proof. intros s. exists []. rewrite app_nil_r. split; [reflexivity|constructor]. Qed.

Lemma emits_modify P (f : state -> state) :
  (forall s, trace (f s) = trace s) -> emits P (modify f).
Proof.
  intros Hf s. exists []. rewrite app_nil_r. split; [apply Hf|constructor].
Qed.

Lemma emits_emit (P : event -> Prop) ev : P ev -> emits P (emit ev).
Proof.
  intros HP s. exists [ev]. split; [reflexivity|]. constructor; [exact HP|constructor].
Qed.

Lemma emits_bind {A B} P (m : M A) (f : A -> M B) :
  emits P m -> (forall a, emits P (f a)) -> emits P (bind m f).
Proof.
  intros Hm Hf s. unfold bind. destruct (Hm s) as (evs & Ht & HP).
  destruct (m s) as [[a|e] s1]; simpl in Ht.
  - destruct (Hf a s1) as (evs' & Ht' & HP').
    exists (evs ++ evs'). split.
    + rewrite Ht', Ht, app_assoc. reflexivity.
    + apply List.Forall_app. split; assumption.
  - exists evs. split; assumption.
Qed.

Lemma emits_try_except {A} P (m : M A) h :
  emits P m -> (forall e k, h e = Some k -> emits P k) ->
  emits P (try_except m h).
Proof.
  intros Hm Hh s. unfold try_except. destruct (Hm s) as (evs & Ht & HP).
  destruct (m s) as [[a|e] s1]; simpl in Ht.
  - exists evs. split; assumption.
  - destruct (h e) as [k|] eqn:Hk.
    + destruct (Hh e k Hk s1) as (evs' & Ht' & HP').
      exists (evs ++ evs'). split.
      * rewrite Ht', Ht, app_assoc. reflexivity.
      * apply List.Forall_app. split; assumption.
    + exists evs. split; assumption.
Qed.

Lemma emits_for_each {A} P (l : list A) body :
  (forall x, emits P (body x)) -> emits P (for_each l body).
Proof.
  intros Hb. induction l as [|x l IH]; [apply emits_ret|].
  simpl. apply emits_bind; [apply Hb|intros _; exact IH].
Qed.

Lemma emits_if {A} P (b : bool) (m1 m2 : M A) :
  emits P m1 -> emits P m2 -> emits P (if b then m1 else m2).
Proof. destruct b; tauto. Qed.
Ltac handler_cases :=
  repeat match goal with
         | H : (if ?c then _ else _) = Some _ |- _ => destruct c
         end;
  try discriminate;
  repeat match goal with
         | H : Some _ = Some _ |- _ => injection H as <-
         end.

Ltac emits_step :=
  match goal with
  | |- emits _ (bind _ _) => apply emits_bind; [|intros ?]
  | |- emits _ (try_except _ _) =>
      apply emits_try_except; [|intros ? ? ?; handler_cases]
  | |- emits _ (ret _) => apply emits_ret
  | |- emits _ (raise _) => apply emits_raise
  | |- emits _ (sys_exit _) => apply emits_raise
  | |- emits _ (gets _) => apply emits_gets
  | |- emits _ (lift _) => apply emits_lift
  | |- emits _ (modify _) =>
      apply emits_modify; intros ?;
      repeat match goal with
             | |- context [match ?x with _ => _ end] => destruct x
             end;
      reflexivity
  | |- emits _ (emit _) => apply emits_emit
  | |- emits _ (print _) => apply emits_emit
  | |- emits _ (eprint _) => apply emits_emit
  | |- emits _ (for_each _ _) => apply emits_for_each; intros ?
  | |- emits _ (via_client _ _) => unfold via_client
  | |- emits _ (if _ then _ else _) => apply emits_if
  | |- emits _ (match ?x with _ => _ end) => destruct x
  | |- in_stage _ _ => first [left; reflexivity | right; reflexivity]
  end.

Ltac emits_auto := repeat emits_step.

Lemma run_command_emits E cmd tag :
  stage_of (EShell cmd) = tag -> emits (in_stage tag) (_run_command E cmd).
Proof.
  intros Htag. unfold _run_command, subprocess_run. emits_auto.
  left. exact Htag.
Qed.

Lemma get_public_ip_emits E : emits (in_stage ResolveIP) (_get_public_ip E).
Proof.
  unfold _get_public_ip, requests_get. emits_auto.
  apply run_command_emits. reflexivity.
Qed.

Lemma setup_docker_emits E : emits (in_stage RuntimeCheck) (_setup_docker E).
Proof.
  unfold _setup_docker. emits_auto; apply run_command_emits; reflexivity.
Qed.

Lemma from_env_emits E : emits (in_stage Connect) (docker_from_env E).
Proof. unfold docker_from_env. emits_auto. Qed.

Lemma pull_bind_image_emits E : emits (in_stage PullImage) (_pull_bind_image E).
Proof.
  unfold _pull_bind_image. generalize (seq 0 max_retries). intros l.
  induction l as [|k l IH]; simpl; [apply emits_ret|].
  apply emits_bind.
  - unfold pull_attempt, images_pull. emits_auto.
  - intros []; [apply emits_ret|exact IH].
Qed.

Lemma organize_emits records : emits (fun _ => False) (organize records).
Proof. unfold organize. emits_auto. Qed.

Lemma generate_zone_file_emits E d :
  emits (in_stage WriteFiles) (_generate_zone_file E d).
Proof.
  unfold _generate_zone_file, _get_serial, datetime_utcnow. emits_auto.
Qed.

Lemma write_text_emits E path content :
  emits (in_stage WriteFiles) (write_text E path content).
Proof. unfold write_text. emits_auto. Qed.

Lemma generate_zone_files_emits E :
  emits (in_stage WriteFiles) (_generate_zone_files E).
Proof.
  unfold _generate_zone_files, path_mkdir, _generate_zone_entries, write_zone.
  emits_auto; first [apply write_text_emits | apply generate_zone_file_emits].
Qed.

Lemma start_container_emits E :
  emits (in_stage ReplaceContainer) (_start_container E).
Proof.
  unfold _start_container, cleanup_existing, start_new, containers_get,
    container_remove, containers_run.
  emits_auto.
Qed.
Lemma run_stages_staged l :
  Forall (fun st => emits (in_stage st.1) st.2) l ->
  forall s, exists blocks,
    staged l s blocks (run_stages l s)
    /\ Forall (fun b => Forall (in_stage b.1) b.2) blocks
    /\ trace (run_stages l s).2 = trace s ++ concat (map snd blocks)
    /\ exists rest, map fst l = map fst blocks ++ rest.
Proof.
  induction 1 as [|[tag m] l Hm _ IH]; intros s.
  - exists []. split_and!.
    + constructor.
    + constructor.
    + simpl. rewrite app_nil_r. reflexivity.
    + exists []. reflexivity.
  - simpl in Hm. destruct (Hm s) as (evs & Ht & Hevs).
    cbn [run_stages]. unfold bind.
    destruct (m s) as [[[]|e] s1] eqn:Hrun; simpl in Ht.
    + destruct (IH s1) as (blocks & Hst & Htags & Htr & rest & Hpre).
      exists ((tag, evs) :: blocks). split_and!.
      * econstructor; eassumption.
      * constructor; assumption.
      * rewrite Htr, Ht. simpl. rewrite app_assoc. reflexivity.
      * exists rest. simpl. rewrite Hpre. reflexivity.
    + exists [(tag, evs)]. split_and!.
      * econstructor; eassumption.
      * constructor; [assumption|constructor].
      * simpl. rewrite app_nil_r. exact Ht.
      * exists (map fst l). reflexivity.
Qed.

Lemma start_stages_emit E records :
  Forall (fun st => emits (in_stage st.1) st.2) (start_stages E records).
Proof.
  unfold start_stages. repeat constructor; cbn [fst snd].
  - emits_auto. apply get_public_ip_emits.
  - apply setup_docker_emits.
  - emits_auto. apply from_env_emits.
  - apply pull_bind_image_emits.
  - eapply emits_weaken; [|apply organize_emits]. intros ev [].
  - apply generate_zone_files_emits.
  - apply start_container_emits.
Qed.

(** C2, amended: [start] goes through its stages in the order: resolve
    the public IP, check (and if need be install) the container runtime,
    connect the client, pull the image, build the model from the records,
    render and write the files, replace and launch the container.  A stage
    is entered only when the one before it returned, every external call
    belongs to the stage that is running, and the first stage that raises
    is the last one entered; the outcome is then reported.  So the
    replacement and launch of the container follow the writing of the
    files, whereas the runtime check and the image pull come before the
    model is built and the files are written. *)
Theorem start_runs_stages_in_order E records s :
  map fst (start_stages E records)
  = [ResolveIP; RuntimeCheck; Connect; PullImage; BuildModel; WriteFiles;
     ReplaceContainer]
  /\ exists blocks r,
       staged (start_stages E records) s blocks r
       /\ start E records s = start_outcome r
       /\ Forall (fun b => Forall (in_stage b.1) b.2) blocks
       /\ trace r.2 = trace s ++ concat (map snd blocks)
       /\ (exists rest,
             map fst (start_stages E records) = map fst blocks ++ rest)
       /\ (exists report,
             trace (start E records s).2 = trace r.2 ++ report
             /\ Forall (fun ev => stage_of ev = Report) report).
Proof.
  split; [reflexivity|].
  destruct (run_stages_staged _ (start_stages_emit E records) s)
    as (blocks & Hst & Htags & Htr & Hpre).
  exists blocks, (run_stages (start_stages E records) s).
  split_and!; try assumption.
  - apply start_by_stages.
  - rewrite start_by_stages.
    destruct (run_stages (start_stages E records) s) as [[[]|e] s1].
    + exists []. rewrite app_nil_r. split; [reflexivity|constructor].
    + unfold start_outcome.
      destruct (_ || _).
      * eexists [_]. split; [reflexivity|]. repeat constructor.
      * destruct (Exn.isinstance e Exn.KeyboardInterrupt).
        -- eexists [_]. split; [reflexivity|]. repeat constructor.
        -- exists []. rewrite app_nil_r. split; [reflexivity|constructor].
Qed.

(** C2, as stated, fails: in a run where every call goes through, the
    runtime check and the image pull are made before the first file is
    written. *)
Lemma start_pulls_before_writing :
  map stage_of
    (trace (start calm [("a.example.com", "1.1.1.1")] (boot ∅ [] 0)).2)
  = [ResolveIP; Report; RuntimeCheck; Connect; PullImage;
     WriteFiles; WriteFiles; WriteFiles; WriteFiles;
     ReplaceContainer; ReplaceContainer]
  /\ (trace (start calm [("a.example.com", "1.1.1.1")] (boot ∅ [] 0)).2) !! 2
     = Some (EShell "docker ps")
  /\ (trace (start calm [("a.example.com", "1.1.1.1")] (boot ∅ [] 0)).2) !! 4
     = Some (EImagePull "ubuntu/bind9:latest")
  /\ (trace (start calm [("a.example.com", "1.1.1.1")] (boot ∅ [] 0)).2) !! 5
     = Some (EMkdir "/etc/bind").
Proof. vm_compute. split_and!; reflexivity. Qed.
(** ** Input that [main] rejects *)




(** ** Exit statuses *)






(** * Further properties of the code *)

(** ** Checking the runtime *)

(** The runtime is checked once.  When [docker ps] works nothing is
    installed.  When it fails the install script is run and then, only if
    that worked, the service is enabled; [docker ps] is not run a second
    time, so a run goes on after an installation without having seen the
    runtime answer.  A failing install or enable command ends the stage
    with a [DockerError] that carries the command and its error output. *)
Theorem setup_docker_checks_once E s check :
  shell E "docker ps" = Ok check ->
  let install := "curl -fsSL https://get.docker.com | sh" in
  let enable := "systemctl enable --now docker" in
  let failure := fun cmd (p : completed) =>
    Exn.Raised Exn.DockerError
      ("Docker installation failed: " +:+ "Command failed: " +:+ cmd +:+ Py.nl
       +:+ "Error: " +:+ stderr p) in
  let out := _setup_docker E s in
  (returncode check = 0%Z -> out = (Ok tt, log (EShell "docker ps") s))
  /\ (returncode check <> 0%Z ->
      forall pi, shell E install = Ok pi ->
        (returncode pi <> 0%Z ->
           out.1 = Raise (failure install pi)
           /\ trace out.2
              = trace s ++ [EShell "docker ps"; EPrint "Installing Docker...";
                            EShell install])
        /\ (returncode pi = 0%Z ->
            forall pe, shell E enable = Ok pe ->
              trace out.2
              = trace s ++ [EShell "docker ps"; EPrint "Installing Docker...";
                            EShell install; EShell enable]
              /\ (returncode pe = 0%Z -> out.1 = Ok tt)
              /\ (returncode pe <> 0%Z -> out.1 = Raise (failure enable pe)))).
Proof.
  intros Hcheck install enable failure out.
  assert (Hout : out = _setup_docker E s) by reflexivity. clearbody out.
  unfold _setup_docker in Hout. cbv [try_except bind print emit modify ret raise] in Hout.
  rewrite run_command_run, Hcheck in Hout.
  split.
  - intros H0. rewrite H0 in Hout. exact Hout.
  - intros Hn0 pi Hpi. apply Z.eqb_neq in Hn0. rewrite Hn0 in Hout.
    change (Exn.isinstance (Exn.Raised Exn.DNSConfigError ?m) Exn.DNSConfigError)
      with true in Hout. cbv beta iota in Hout.
    rewrite run_command_run in Hout. fold install in Hout. rewrite Hpi in Hout.
    split.
    + intros Hpin. apply Z.eqb_neq in Hpin. rewrite Hpin in Hout.
      subst out. split; [reflexivity|].
      simpl. rewrite <- !app_assoc. reflexivity.
    + intros Hpi0 pe Hpe. rewrite Hpi0 in Hout.
      change (0 =? 0)%Z with true in Hout. cbv beta iota in Hout.
      rewrite run_command_run in Hout. fold enable in Hout. rewrite Hpe in Hout.
      destruct (returncode pe =? 0)%Z eqn:Hpe0.
      * apply Z.eqb_eq in Hpe0. subst out. split_and!.
        -- simpl. rewrite <- !app_assoc. reflexivity.
        -- reflexivity.
        -- congruence.
      * apply Z.eqb_neq in Hpe0. subst out. split_and!.
        -- simpl. rewrite <- !app_assoc. reflexivity.
        -- congruence.
        -- reflexivity.
Qed.

Lemma setup_docker_checks_once_witness :
  shell no_runtime "docker ps"
  = Ok {| returncode := 1; stdout := ""; stderr := "docker: command not found" |}
  /\ (_setup_docker no_runtime (boot ∅ [] 0)).1 = Ok tt
  /\ trace (_setup_docker no_runtime (boot ∅ [] 0)).2
     = [EShell "docker ps"; EPrint "Installing Docker...";
        EShell "curl -fsSL https://get.docker.com | sh";
        EShell "systemctl enable --now docker"].
Proof.
  split; [reflexivity|].
  destruct (setup_docker_checks_once no_runtime (boot ∅ [] 0) _ eq_refl)
    as [_ H].
  assert (Hn : (1 <> 0)%Z) by discriminate.
  destruct (H Hn _ eq_refl) as [_ H2].
  destruct (H2 eq_refl _ eq_refl) as (Ht & Hok & _).
  split; [exact (Hok eq_refl)|exact Ht].
Defined.

(** ** The serial and the clock *)

(** The serial follows the hour of the clock: a reading in an earlier
    hour gives a smaller serial, and two readings give the same serial
    exactly when they lie in the same hour, so that zones rendered again
    within the hour keep their serial. *)
Theorem serial_follows_the_hour E s1 s2 :
  let t1 := utcnow E (count_events is_utcnow s1) in
  let t2 := utcnow E (count_events is_utcnow s2) in
  valid_datetime t1 -> valid_datetime t2 ->
  exists n1 n2 : Z,
    (_get_serial E s1).1 = Ok n1 /\ (_get_serial E s2).1 = Ok n2
    /\ ((n1 < n2)%Z <-> earlier_hour t1 t2)
    /\ (n1 = n2 <-> same_hour t1 t2).
Proof.
  intros t1 t2 H1 H2. exists (YYYYMMDDHH t1), (YYYYMMDDHH t2).
  rewrite (get_serial_run E s1 H1), (get_serial_run E s2 H2).
  split; [reflexivity|]. split; [reflexivity|].
  destruct H1 as (Hy1 & Hm1 & Hd1 & Hh1), H2 as (Hy2 & Hm2 & Hd2 & Hh2).
  unfold YYYYMMDDHH, earlier_hour, same_hour. split; split; lia.
Qed.

Lemma serial_follows_the_hour_witness :
  valid_datetime noon
  /\ exists n1 n2 : Z,
       (_get_serial calm (boot ∅ [] 0)).1 = Ok n1
       /\ (_get_serial calm (log EUtcNow (boot ∅ [] 0))).1 = Ok n2
       /\ (n1 = n2 <-> same_hour noon noon).
Proof.
  split; [exact noon_valid|].
  destruct (serial_follows_the_hour calm (boot ∅ [] 0)
              (log EUtcNow (boot ∅ [] 0)) noon_valid noon_valid)
    as (n1 & n2 & H1 & H2 & _ & H3).
  exists n1, n2. split; [exact H1|]. split; [exact H2|exact H3].
Defined.
(** ** The model that [start] builds *)

Lemma add_record_nodup all r :
  NoDup (Py.keys all) -> NoDup (Py.keys (add_record all r)).
Proof.
  intros Hnd. unfold add_record, Py.setdefault.
  match goal with
  | |- context [match ?x with Some _ => _ | None => _ end] => destruct x
  end; apply set_nodup; [exact Hnd|].
  apply set_nodup, Hnd.
Qed.

Lemma grouped_from_nodup records (acc : Py.dict (Py.dict string)) :
  NoDup (Py.keys acc) -> NoDup (Py.keys (fold_left add_record records acc)).
Proof.
  revert acc. induction records as [|r records IH]; intros acc H; [exact H|].
  simpl. apply IH, add_record_nodup, H.
Qed.

Lemma filter_keys_nodup {V} (P : string * V -> bool) l :
  NoDup (Py.keys l) -> NoDup (Py.keys (List.filter P l)).
Proof.
  induction l as [|[k v] l IH]; [intros; apply NoDup_nil_2|].
  change (Py.keys ((k, v) :: l)) with (k :: Py.keys l).
  intros Hnd. apply NoDup_cons in Hnd as [Hk Hnd]. cbn [List.filter].
  destruct (P (k, v)); [|apply IH, Hnd].
  change (Py.keys ((k, v) :: List.filter P l))
    with (k :: Py.keys (List.filter P l)).
  apply NoDup_cons. split; [|apply IH, Hnd].
  intros Hin. apply Hk. apply list_elem_of_In in Hin.
  apply list_elem_of_In. unfold Py.keys in *.
  apply in_map_iff in Hin as ([k' v'] & <- & Hin').
  apply List.filter_In in Hin' as [Hin' _].
  apply (in_map fst) in Hin'. exact Hin'.
Qed.

(** The model keeps its shape: apexes are distinct; the mapping of an
    apex is never empty, holds only records of that apex, each of them a
    record of the input, and has distinct host names; and an apex is in
    the model exactly when some host of the input has it. *)
Theorem model_well_formed records :
  NoDup (Py.keys records) ->
  let model := grouped records in
  NoDup (Py.keys model)
  /\ (forall d inner, Py.get d model = Some inner ->
        inner <> []
        /\ NoDup (Py.keys inner)
        /\ forall host ip, In (host, ip) inner ->
             In (host, ip) records
             /\ Py.join "." (Py.last_n 2 (Py.split "." host)) = d)
  /\ (forall d, In d (Py.keys model) <->
        exists host, In host (Py.keys records)
                     /\ Py.join "." (Py.last_n 2 (Py.split "." host)) = d).
Proof.
  intros Hnd model. split_and!.
  - apply grouped_from_nodup, NoDup_nil_2.
  - intros d inner Hget. unfold model in Hget.
    rewrite grouped_get in Hget by exact Hnd.
    destruct (List.filter _ records) as [|x f] eqn:Hf; [discriminate|].
    injection Hget as <-. split_and!.
    + discriminate.
    + rewrite <- Hf. apply filter_keys_nodup, Hnd.
    + intros host ip Hin. rewrite <- Hf in Hin.
      apply List.filter_In in Hin as [Hin Hd]. split; [exact Hin|].
      apply String.eqb_eq in Hd. exact Hd.
  - intros d. split.
    + intros Hin. destruct (get_of_keys model d Hin) as [inner Hget].
      unfold model in Hget. rewrite grouped_get in Hget by exact Hnd.
      destruct (List.filter _ records) as [|[host ip] f] eqn:Hf; [discriminate|].
      assert (Hx : In (host, ip)
                     (List.filter (fun r => String.eqb (apex r.1) d) records)).
      { rewrite Hf. left. reflexivity. }
      apply List.filter_In in Hx as [Hx Hd]. apply String.eqb_eq in Hd.
      exists host. split; [|exact Hd].
      apply (in_map fst) in Hx. exact Hx.
    + intros (host & Hhost & Hd).
      destruct (Py.get d model) as [inner|] eqn:Hget.
      * apply get_some_in in Hget. apply (in_map fst) in Hget. exact Hget.
      * exfalso. unfold model in Hget. rewrite grouped_get in Hget by exact Hnd.
        destruct (get_of_keys records host Hhost) as [ip Hip].
        apply get_some_in in Hip.
        assert (Hx : In (host, ip)
                       (List.filter (fun r => String.eqb (apex r.1) d) records)).
        { apply List.filter_In. split; [exact Hip|].
          apply String.eqb_eq. exact Hd. }
        destruct (List.filter _ records); [destruct Hx|discriminate].
Qed.

Lemma model_well_formed_witness :
  NoDup (Py.keys [("a.example.com", "1.1.1.1"); ("b.example.org", "2.2.2.2")])
  /\ NoDup (Py.keys (grouped [("a.example.com", "1.1.1.1");
                             ("b.example.org", "2.2.2.2")])).
Proof.
  assert (H : NoDup (Py.keys [("a.example.com", "1.1.1.1");
                              ("b.example.org", "2.2.2.2")])).
  { apply NoDup_cons. split.
    - intros Hin. apply list_elem_of_In in Hin. simpl in Hin.
      destruct Hin as [Hin|[]]. discriminate Hin.
    - apply NoDup_cons. split; [|apply NoDup_nil_2].
      intros Hin. apply list_elem_of_In in Hin. destruct Hin. }
  split; [exact H|].
  exact (proj1 (model_well_formed _ H)).
Defined.
Lemma record_count_set_some k (v old : Py.dict string) d :
  Py.get k d = Some old ->
  record_count (Py.set k v d) + length old = record_count d + length v.
Proof.
  unfold record_count. induction d as [|[k' v'] d IH]; [discriminate|].
  cbn [Py.get Py.set]. destruct (String.eqb k' k).
  - intros [= ->]. simpl. lia.
  - intros H. specialize (IH H). simpl in *. lia.
Qed.

Lemma record_count_set_none k (v : Py.dict string) d :
  Py.get k d = None ->
  record_count (Py.set k v d) = record_count d + length v.
Proof.
  unfold record_count. induction d as [|[k' v'] d IH]; intros H.
  - simpl. lia.
  - cbn [Py.get Py.set] in *. destruct (String.eqb k' k); [discriminate|].
    specialize (IH H). simpl in *. lia.
Qed.

Lemma add_record_count acc h ip :
  (forall inner, Py.get (apex h) acc = Some inner -> ~ In h (Py.keys inner)) ->
  record_count (add_record acc (h, ip)) = S (record_count acc).
Proof.
  intros Hfresh. unfold add_record, Py.setdefault.
  cbv beta iota zeta delta [fst snd].
  change (@Py.get (list (string * string)) (apex h) acc)
    with (@Py.get (Py.dict string) (apex h) acc).
  destruct (Py.get (apex h) acc) as [inner|] eqn:Hg.
  - pose proof (record_count_set_some (apex h) (Py.set h ip inner) inner acc Hg)
      as Hc.
    rewrite (set_fresh h ip inner (Hfresh inner eq_refl)) in *.
    rewrite length_app in Hc. simpl in Hc. lia.
  - pose proof (record_count_set_none (apex h) [] acc Hg) as Hc0.
    pose proof (record_count_set_some (apex h) (Py.set h ip []) []
                  (Py.set (apex h) [] acc) (get_set_eq _ _ _)) as Hc.
    change (length (Py.set h ip [])) with 1 in Hc.
    change (length (@nil (string * string))) with 0 in Hc, Hc0.
    match goal with
    | |- record_count ?x = _ =>
        match type of Hc with
        | record_count ?y + _ = _ => change x with y
        end
    end.
    pose proof (Hc0 : record_count
                        (@Py.set (list (string * string)) (apex h) [] acc)
                      = record_count acc + 0) as Hc1.
    lia.
Qed.

Lemma add_record_keeps_fresh acc h ip h' d inner :
  h' <> h ->
  (forall d0 inner0, Py.get d0 acc = Some inner0 -> ~ In h' (Py.keys inner0)) ->
  Py.get d (add_record acc (h, ip)) = Some inner -> ~ In h' (Py.keys inner).
Proof.
  intros Hne Hfresh Hg. rewrite add_record_get in Hg.
  destruct (String.eqb (apex h) d); [|exact (Hfresh d inner Hg)].
  injection Hg as <-. rewrite keys_set.
  destruct (Py.get (apex h) acc) as [inner0|] eqn:Hg0; cbn [default id].
  - destruct (Py.get h inner0).
    + exact (Hfresh _ _ Hg0).
    + intros Hin. apply in_app_or in Hin as [Hin|[Heq|[]]].
      * exact (Hfresh _ _ Hg0 Hin).
      * congruence.
  - simpl. intros [Heq|[]]. congruence.
Qed.

Lemma grouped_from_count records :
  forall acc : Py.dict (Py.dict string),
    NoDup (Py.keys records) ->
    (forall h d inner, In h (Py.keys records) ->
       Py.get d acc = Some inner -> ~ In h (Py.keys inner)) ->
    record_count (fold_left add_record records acc)
    = record_count acc + length records.
Proof.
  induction records as [|[h ip] records IH]; intros acc Hnd Hfresh.
  - simpl. lia.
  - change (Py.keys ((h, ip) :: records)) with (h :: Py.keys records) in *.
    apply NoDup_cons in Hnd as [Hh Hnd].
    simpl fold_left. rewrite IH; [|exact Hnd|].
    + rewrite add_record_count.
      * simpl. lia.
      * intros inner Hg. apply (Hfresh h (apex h) inner); [left; reflexivity|exact Hg].
    + intros h' d inner Hh' Hg.
      apply (add_record_keeps_fresh acc h ip h' d inner); [| |exact Hg].
      * intros ->. apply Hh, list_elem_of_In, Hh'.
      * intros d0 inner0 Hg0. apply (Hfresh h' d0 inner0); [right; exact Hh'|exact Hg0].
Qed.

(** Grouping neither loses nor repeats a record: the mappings of the
    apexes together hold as many records as the input has. *)
Theorem grouping_keeps_every_record records :
  NoDup (Py.keys records) ->
  record_count (grouped records) = length records.
Proof.
  intros Hnd. unfold grouped. rewrite grouped_from_count; [reflexivity|exact Hnd|].
  intros h d inner _ H. discriminate H.
Qed.

Lemma grouping_keeps_every_record_witness :
  NoDup (Py.keys (collect [("a.example.com", "1.1.1.1");
                           ("b.example.com", "3.3.3.3");
                           ("a.example.com", "2.2.2.2")]))
  /\ record_count
       (grouped (collect [("a.example.com", "1.1.1.1");
                          ("b.example.com", "3.3.3.3");
                          ("a.example.com", "2.2.2.2")])) = 2.
Proof.
  split; [apply collect_nodup|].
  exact (grouping_keeps_every_record _ (collect_nodup _)).
Defined.
(** ** The apex of a host name *)

Lemma split_nonempty sep s : Py.split sep s <> [].
Proof.
  destruct s as [|c s]; simpl; [discriminate|].
  destruct (Ascii.eqb c sep); [discriminate|].
  destruct (Py.split sep s); discriminate.
Qed.

Lemma join_split sep s :
  Py.join (String sep EmptyString) (Py.split sep s) = s.
Proof.
  induction s as [|c s IH]; [reflexivity|].
  cbn [Py.split]. pose proof (split_nonempty sep s) as Hne.
  destruct (Ascii.eqb_spec c sep) as [->|Hc].
  - destruct (Py.split sep s) as [|w ws]; [congruence|].
    rewrite join_cons, IH. reflexivity.
  - destruct (Py.split sep s) as [|w ws]; [congruence|].
    destruct ws as [|w' ws].
    + simpl in *. congruence.
    + change (String c (Py.join (String sep "") (w :: w' :: ws)) = String c s).
      rewrite IH. reflexivity.
Qed.

Lemma split_no_sep sep s :
  Forall (fun w => Py.contains sep w = false) (Py.split sep s).
Proof.
  induction s as [|c s IH]; [repeat constructor|].
  cbn [Py.split]. destruct (Ascii.eqb_spec c sep) as [->|Hc].
  - constructor; [reflexivity|exact IH].
  - destruct (Py.split sep s) as [|w ws].
    + constructor; [|constructor]. simpl.
      destruct (Ascii.eqb_spec c sep); [contradiction|reflexivity].
    + apply Forall_cons in IH as [Hw Hws]. constructor; [|exact Hws].
      simpl. destruct (Ascii.eqb_spec c sep); [contradiction|exact Hw].
Qed.

Lemma split_whole sep x : Py.contains sep x = false -> Py.split sep x = [x].
Proof.
  induction x as [|c x IH]; [reflexivity|].
  cbn [Py.contains Py.split]. destruct (Ascii.eqb c sep); [discriminate|].
  intros H. rewrite (IH H). reflexivity.
Qed.

Lemma split_app_sep sep x r :
  Py.contains sep x = false ->
  Py.split sep (x +:+ String sep r) = x :: Py.split sep r.
Proof.
  induction x as [|c x IH].
  - intros _. simpl. rewrite Ascii.eqb_refl. reflexivity.
  - cbn [Py.contains]. destruct (Ascii.eqb c sep) eqn:Hc; [discriminate|].
    intros H. cbn [String.append Py.split]. rewrite Hc, (IH H). reflexivity.
Qed.

Lemma split_join sep l :
  l <> [] -> Forall (fun w => Py.contains sep w = false) l ->
  Py.split sep (Py.join (String sep EmptyString) l) = l.
Proof.
  induction l as [|x l IH]; [congruence|]. intros _ Hall.
  apply Forall_cons in Hall as [Hx Hl].
  destruct l as [|y l].
  - apply split_whole, Hx.
  - rewrite join_cons.
    change (x +:+ String sep "" +:+ Py.join (String sep "") (y :: l))
      with (x +:+ String sep (Py.join (String sep "") (y :: l))).
    rewrite split_app_sep by exact Hx. f_equal.
    apply IH; [discriminate|exact Hl].
Qed.

Lemma join_app sep a b :
  a <> [] -> b <> [] ->
  Py.join sep (a ++ b) = Py.join sep a +:+ sep +:+ Py.join sep b.
Proof.
  induction a as [|x a IH]; [congruence|]. intros _ Hb.
  destruct a as [|y a].
  - destruct b as [|z b]; [congruence|]. reflexivity.
  - change ((x :: y :: a) ++ b) with (x :: y :: (a ++ b)).
    rewrite !join_cons.
    change (y :: a ++ b) with ((y :: a) ++ b).
    rewrite IH by (discriminate || exact Hb).
    rewrite !append_assoc. reflexivity.
Qed.

Lemma last_n_short {A} n (l : list A) : length l <= n -> Py.last_n n l = l.
Proof.
  intros H. unfold Py.last_n.
  replace (length l - n) with 0 by lia. reflexivity.
Qed.

Lemma last_n_length {A} n (l : list A) : length (Py.last_n n l) <= n.
Proof. unfold Py.last_n. rewrite length_drop. lia. Qed.

Lemma last_n_nonempty {A} n (l : list A) :
  0 < n -> l <> [] -> Py.last_n n l <> [].
Proof.
  intros Hn Hl Heq. apply (f_equal length) in Heq.
  unfold Py.last_n in Heq. rewrite length_drop in Heq. simpl in Heq.
  destruct l; [congruence|]. simpl in Heq. lia.
Qed.

(** The apex of a host name is the name itself or what follows one of
    its dots; a name without a dot is its own apex; an apex has at most
    two labels and is its own apex, so that grouping again by apex changes
    nothing. *)
Theorem apex_of_host host :
  (exists pre, host = pre +:+ apex host
               /\ (pre = EmptyString \/ exists p, pre = p +:+ "."))
  /\ (Py.contains "." host = false -> apex host = host)
  /\ length (Py.split "." (apex host)) <= 2
  /\ apex (apex host) = apex host.
Proof.
  pose proof (split_nonempty "." host) as Hne.
  pose proof (split_no_sep "." host) as Hlabels.
  assert (Hlast_ne : Py.last_n 2 (Py.split "." host) <> [])
    by (apply last_n_nonempty; [lia|exact Hne]).
  assert (Hlast_labels :
            Forall (fun w => Py.contains "." w = false)
              (Py.last_n 2 (Py.split "." host))).
  { unfold Py.last_n. apply Forall_drop, Hlabels. }
  assert (Hsplit : Py.split "." (apex host) = Py.last_n 2 (Py.split "." host)).
  { unfold apex. apply split_join; assumption. }
  split_and!.
  - unfold apex, Py.last_n.
    set (l := Py.split "." host) in *. set (k := length l - 2).
    destruct (take k l) as [|x a] eqn:Htake.
    + exists EmptyString. split; [|left; reflexivity].
      rewrite <- (join_split "." host) at 1. fold l.
      rewrite <- (take_drop k l) at 1. rewrite Htake. reflexivity.
    + exists (Py.join "." (x :: a) +:+ "."). split.
      * rewrite <- (join_split "." host) at 1. fold l.
        rewrite <- (take_drop k l) at 1. rewrite Htake.
        rewrite join_app; [|discriminate|exact Hlast_ne].
        rewrite !append_assoc. reflexivity.
      * right. eexists. reflexivity.
  - intros Hno. unfold apex. rewrite (split_whole "." host Hno). reflexivity.
  - rewrite Hsplit. apply last_n_length.
  - unfold apex at 1. rewrite Hsplit.
    rewrite last_n_short by apply last_n_length. reflexivity.
Qed.
(** ** Reading an entry *)



Lemma rstrip_cons c s :
  Py.rstrip (String c s)
  = match Py.rstrip s with
    | EmptyString => if Py.isspace c then EmptyString else String c EmptyString
    | String c' r => String c (String c' r)
    end.
Proof. reflexivity. Qed.

Lemma rstrip_idempotent s : Py.rstrip (Py.rstrip s) = Py.rstrip s.
Proof.
  induction s as [|c s IH]; [reflexivity|].
  rewrite rstrip_cons. destruct (Py.rstrip s) as [|c' r] eqn:Hr.
  - destruct (Py.isspace c) eqn:Hc; [reflexivity|].
    rewrite rstrip_cons. change (Py.rstrip "") with EmptyString.
    rewrite Hc. reflexivity.
  - rewrite rstrip_cons, IH. reflexivity.
Qed.

Lemma lstrip_head s :
  Py.lstrip s = EmptyString
  \/ exists c r, Py.lstrip s = String c r /\ Py.isspace c = false.
Proof.
  induction s as [|c s IH]; [left; reflexivity|].
  cbn [Py.lstrip]. destruct (Py.isspace c) eqn:Hc; [exact IH|].
  right. eauto.
Qed.

Lemma rstrip_head c r :
  Py.isspace c = false -> exists r', Py.rstrip (String c r) = String c r'.
Proof.
  intros Hc. rewrite rstrip_cons. destruct (Py.rstrip r); [rewrite Hc|]; eauto.
Qed.

Lemma strip_idempotent s : Py.strip (Py.strip s) = Py.strip s.
Proof.
  unfold Py.strip.
  destruct (lstrip_head s) as [->|(c & r & -> & Hc)]; [reflexivity|].
  destruct (rstrip_head c r Hc) as [r' Hr']. rewrite Hr'.
  cbn [Py.lstrip]. rewrite Hc, <- Hr'. apply rstrip_idempotent.
Qed.


(** ** Writing the files: what is left alone *)

Lemma preserves_ret {A B} (f : state -> B) (a : A) : preserves f (ret a).
Proof. intros s. reflexivity. Qed.

Lemma preserves_raise {A B} (f : state -> B) e : preserves f (raise (A:=A) e).
Proof. intros s. reflexivity. Qed.

Lemma preserves_gets {A B} (f : state -> B) (g : state -> A) :
  preserves f (gets g).
Proof. intros s. reflexivity. Qed.

Lemma preserves_lift {A B} (f : state -> B) (r : result A) :
  preserves f (lift r).
Proof. intros s. reflexivity. Qed.

Lemma preserves_modify {B} (f : state -> B) g :
  (forall s, f (g s) = f s) -> preserves f (modify g).
Proof. intros H s. apply H. Qed.

Lemma preserves_bind {A C B} (f : state -> B) (m : M A) (k : A -> M C) :
  preserves f m -> (forall a, preserves f (k a)) -> preserves f (bind m k).
Proof.
  intros Hm Hk s. unfold bind. specialize (Hm s).
  destruct (m s) as [[a|e] s1]; simpl in Hm; [|exact Hm].
  rewrite (Hk a s1). exact Hm.
Qed.

Lemma preserves_try_except {A B} (f : state -> B) (m : M A) h :
  preserves f m -> (forall e k, h e = Some k -> preserves f k) ->
  preserves f (try_except m h).
Proof.
  intros Hm Hh s. unfold try_except. specialize (Hm s).
  destruct (m s) as [[a|e] s1]; simpl in Hm; [exact Hm|].
  destruct (h e) as [k|] eqn:Hk; [|exact Hm].
  rewrite (Hh e k Hk s1). exact Hm.
Qed.

Lemma preserves_for_each {A B} (f : state -> B) (l : list A) body :
  (forall x, In x l -> preserves f (body x)) -> preserves f (for_each l body).
Proof.
  induction l as [|x l IH]; intros Hb; [apply preserves_ret|].
  simpl. apply preserves_bind.
  - apply Hb. left. reflexivity.
  - intros _. apply IH. intros y Hy. apply Hb. right. exact Hy.
Qed.

Lemma preserves_if {A B} (f : state -> B) (b : bool) (m1 m2 : M A) :
  preserves f m1 -> preserves f m2 -> preserves f (if b then m1 else m2).
Proof. destruct b; tauto. Qed.

Ltac preserves_step :=
  match goal with
  | |- preserves _ (bind _ _) => apply preserves_bind; [|intros ?]
  | |- preserves _ (try_except _ _) =>
      apply preserves_try_except; [|intros ? ? ?; handler_cases]
  | |- preserves _ (ret _) => apply preserves_ret
  | |- preserves _ (raise _) => apply preserves_raise
  | |- preserves _ (sys_exit _) => apply preserves_raise
  | |- preserves _ (gets _) => apply preserves_gets
  | |- preserves _ (lift _) => apply preserves_lift
  | |- preserves _ (emit _) => apply preserves_modify; intros ?; reflexivity
  | |- preserves _ (print _) => apply preserves_modify; intros ?; reflexivity
  | |- preserves _ (eprint _) => apply preserves_modify; intros ?; reflexivity
  | |- preserves _ (modify _) =>
      apply preserves_modify; intros ?;
      repeat match goal with
             | |- context [match ?x with _ => _ end] => destruct x
             end;
      reflexivity
  | |- preserves _ (via_client _ _) => unfold via_client
  | |- preserves _ (if _ then _ else _) => apply preserves_if
  | |- preserves _ (match ?x with _ => _ end) => destruct x
  end.

Ltac preserves_auto := repeat preserves_step.

Section Observation.

Context {B : Type} (f : state -> B).
Hypothesis f_log : forall ev s, f (log ev s) = f s.
Hypothesis f_dirs : forall d s, f (set_dirs d s) = f s.

Lemma path_mkdir_obs E path : preserves f (path_mkdir E path).
Proof using f_log f_dirs.
  unfold path_mkdir. apply preserves_bind.
  - apply preserves_modify. intros s. apply f_log.
  - intros _. destruct (mkdir_fault E); [apply preserves_raise|].
    apply preserves_modify. intros s. apply f_dirs.
Qed.

Lemma write_text_obs E path content :
  (forall c s, f (set_files (<[path := c]> (files s)) s) = f s) ->
  preserves f (write_text E path content).
Proof using f_log.
  intros Hpath. unfold write_text. apply preserves_bind.
  - apply preserves_modify. intros s. apply f_log.
  - intros _. destruct (write_fault E path) as [[e [part|]]|].
    + apply preserves_bind; [|intros _; apply preserves_raise].
      apply preserves_modify. intros s. apply Hpath.
    + apply preserves_bind; [|intros _; apply preserves_raise].
      apply preserves_modify. intros s. reflexivity.
    + apply preserves_modify. intros s. apply Hpath.
Qed.

Lemma generate_zone_file_obs E d : preserves f (_generate_zone_file E d).
Proof using f_log.
  unfold _generate_zone_file, _get_serial, datetime_utcnow.
  apply preserves_bind; [apply preserves_gets|intros all].
  destruct (Py.get d all); [|apply preserves_raise].
  apply preserves_bind; [|intros serial].
  - apply preserves_bind; [|intros now].
    + apply preserves_bind; [apply preserves_gets|intros n].
      apply preserves_bind; [|intros _; apply preserves_ret].
      apply preserves_modify. intros s. apply f_log.
    + destruct (Py.int_of_str _); [apply preserves_ret|apply preserves_raise].
  - apply preserves_bind; [apply preserves_gets|intros ip].
    apply preserves_ret.
Qed.

Lemma write_zone_obs E dir d :
  (forall c s, f (set_files (<[zone_path dir d := c]> (files s)) s) = f s) ->
  preserves f (write_zone E dir d).
Proof using f_log.
  intros Hpath. unfold write_zone. apply preserves_bind.
  - apply generate_zone_file_obs.
  - intros zone. apply write_text_obs, Hpath.
Qed.

(** An observation that the writes of [_generate_zone_files] do not
    change is the same after it as before. *)
Lemma generate_zone_files_obs E s :
  (forall c s', f (set_files (<[path_join (volume_path s) "named.conf" := c]>
                                (files s')) s') = f s') ->
  (forall d c s', In d (Py.keys (dns_records s)) ->
     f (set_files (<[zone_path (volume_path s) d := c]> (files s')) s') = f s') ->
  f (_generate_zone_files E s).2 = f s.
Proof using f_log f_dirs.
  intros Hconf Hzones.
  unfold _generate_zone_files. cbv [try_except bind gets].
  pose proof (path_mkdir_obs E (volume_path s) s) as H1.
  assert (R1 : dns_records (path_mkdir E (volume_path s) s).2 = dns_records s).
  { unfold path_mkdir. cbv [bind emit modify raise].
    destruct (mkdir_fault E); reflexivity. }
  destruct (path_mkdir E (volume_path s) s) as [[[]|e] s1]; simpl in H1, R1.
  2:{ destruct (Exn.isinstance e Exn.PermissionError); [exact H1|].
      destruct (Exn.isinstance e Exn.OSError); exact H1. }
  unfold _generate_zone_entries. cbv [bind gets ret].
  set (conf := named_conf_text _).
  pose proof (write_text_obs E (path_join (volume_path s) "named.conf") conf
                (fun c s' => Hconf c s') s1) as H2.
  assert (R2 : dns_records
                 (write_text E (path_join (volume_path s) "named.conf") conf s1).2
               = dns_records s1).
  { rewrite write_text_run. cbv zeta.
    destruct (write_fault E _) as [[e [part|]]|]; reflexivity. }
  destruct (write_text E _ conf s1) as [[[]|e] s2]; simpl in H2, R2.
  2:{ destruct (Exn.isinstance e Exn.PermissionError); [simpl; congruence|].
      destruct (Exn.isinstance e Exn.OSError); simpl; congruence. }
  rewrite R2, R1.
  assert (H3 : f (for_each (Py.keys (dns_records s))
                    (write_zone E (volume_path s)) s2).2 = f s2).
  { apply (preserves_for_each f). intros d Hd.
    apply write_zone_obs. intros c s'. apply Hzones, Hd. }
  destruct (for_each _ _ s2) as [[[]|e] s3]; simpl in H3.
  - simpl. congruence.
  - destruct (Exn.isinstance e Exn.PermissionError); [simpl; congruence|].
    destruct (Exn.isinstance e Exn.OSError); simpl; congruence.
Qed.

End Observation.


Lemma permission_error_is_os_error e :
  Exn.isinstance e Exn.PermissionError = true ->
  Exn.isinstance e Exn.OSError = true.
Proof.
  unfold Exn.isinstance. destruct (Exn.class_of e); vm_compute; congruence.
Qed.

(** When the base directory cannot be created nothing is written, and
    when [named.conf] cannot be written no zone is rendered or written:
    the stage ends at that call.  A [PermissionError] or another [OSError]
    is raised again as the configuration error of its kind; any other
    exception, such as an interrupt, is passed on as it is. *)
Theorem zone_files_stop_at_first_failure E s :
  let dir := volume_path s in
  let conf_path := path_join dir "named.conf" in
  let conf :=
    named_conf_text (Py.join Py.nl (map zone_entry (Py.keys (dns_records s)))) in
  let raised := fun e : Exn.t =>
    if Exn.isinstance e Exn.OSError then PersistenceError e else e in
  let out := _generate_zone_files E s in
  (forall e, mkdir_fault E = Some e ->
     out = (Raise (raised e), log (EMkdir dir) s))
  /\ (forall e part,
        mkdir_fault E = None -> write_fault E conf_path = Some (e, part) ->
        out.1 = Raise (raised e)
        /\ trace out.2 = trace s ++ [EMkdir dir; EWriteText conf_path conf]
        /\ forall p, p <> conf_path -> files out.2 !! p = files s !! p).
Proof.
  intros dir conf_path conf raised out.
  assert (Hout : out = _generate_zone_files E s) by reflexivity. clearbody out.
  unfold _generate_zone_files in Hout. cbv [try_except bind gets] in Hout.
  fold dir in Hout. rewrite path_mkdir_run in Hout.
  assert (Hh : forall e (s' : state),
            match
              (if Exn.isinstance e Exn.PermissionError
               then Some (raise (A:=unit) (Exn.Raised Exn.DNSConfigError
                                   ("Permission denied: " +:+ Exn.str e)))
               else if Exn.isinstance e Exn.OSError
               then Some (raise (Exn.Raised Exn.DNSConfigError
                                   ("File system error: " +:+ Exn.str e)))
               else None)
            with
            | Some k => k s'
            | None => (Raise e, s')
            end = (Raise (raised e), s')).
  { intros e s'. unfold raised, PersistenceError.
    destruct (Exn.isinstance e Exn.PermissionError) eqn:Hp.
    - rewrite (permission_error_is_os_error e Hp). reflexivity.
    - destruct (Exn.isinstance e Exn.OSError); reflexivity. }
  split.
  - intros e He. rewrite He in Hout. rewrite Hh in Hout. exact Hout.
  - intros e part Hmk Hw. rewrite Hmk in Hout.
    unfold _generate_zone_entries in Hout. cbv [bind gets ret] in Hout.
    change (dns_records (set_dirs ?x ?y)) with (dns_records y) in Hout.
    change (dns_records (log ?x ?y)) with (dns_records y) in Hout.
    fold conf in Hout. rewrite write_text_run in Hout. cbv zeta in Hout.
    fold conf_path in Hout. rewrite Hw in Hout.
    destruct part as [part|]; rewrite Hh in Hout; subst out; simpl.
    + split_and!; [reflexivity|rewrite <- app_assoc; reflexivity|].
      intros p Hp. apply lookup_insert_ne. congruence.
    + split_and!; [reflexivity|rewrite <- app_assoc; reflexivity|].
      intros p Hp. reflexivity.
Qed.
(** ** The engine across a replacement *)

Lemma filter_id_consistent cs n id :
  NoDup (map c_name cs) /\ NoDup (map c_id cs)
  /\ (forall c, In c cs -> c_id c < n) ->
  let cs' := List.filter (fun x => negb (Nat.eqb (c_id x) id)) cs in
  NoDup (map c_name cs') /\ NoDup (map c_id cs')
  /\ (forall c, In c cs' -> c_id c < n).
Proof.
  intros (Hn & Hi & Hb) cs'. subst cs'.
  induction cs as [|x cs IH]; [split_and!; [constructor..|intros c []]|].
  change (map c_name (x :: cs)) with (c_name x :: map c_name cs) in Hn.
  change (map c_id (x :: cs)) with (c_id x :: map c_id cs) in Hi.
  apply NoDup_cons in Hn as [Hxn Hn]. apply NoDup_cons in Hi as [Hxi Hi].
  destruct IH as (IHn & IHi & IHb); [exact Hn|exact Hi| |].
  { intros c Hc. apply Hb. right. exact Hc. }
  cbn [List.filter]. destruct (negb (Nat.eqb (c_id x) id)).
  - split_and!.
    + change (NoDup (c_name x :: map c_name (List.filter
                (fun x0 => negb (Nat.eqb (c_id x0) id)) cs))).
      apply NoDup_cons. split; [|exact IHn].
      intros Hin. apply Hxn. apply list_elem_of_In in Hin.
      apply list_elem_of_In. apply in_map_iff in Hin as (y & <- & Hy).
      apply List.filter_In in Hy as [Hy _]. apply in_map, Hy.
    + change (NoDup (c_id x :: map c_id (List.filter
                (fun x0 => negb (Nat.eqb (c_id x0) id)) cs))).
      apply NoDup_cons. split; [|exact IHi].
      intros Hin. apply Hxi. apply list_elem_of_In in Hin.
      apply list_elem_of_In. apply in_map_iff in Hin as (y & <- & Hy).
      apply List.filter_In in Hy as [Hy _]. apply in_map, Hy.
    + intros c [<-|Hc]; [apply Hb; left; reflexivity|apply IHb, Hc].
  - split_and!; assumption.
Qed.

Lemma nodup_map_inj {A B} (f : A -> B) l x y :
  NoDup (map f l) -> In x l -> In y l -> f x = f y -> x = y.
Proof.
  induction l as [|z l IH]; intros Hnd Hx Hy Hf; [destruct Hx|].
  change (map f (z :: l)) with (f z :: map f l) in Hnd.
  apply NoDup_cons in Hnd as [Hz Hnd].
  destruct Hx as [->|Hx], Hy as [->|Hy].
  - reflexivity.
  - exfalso. apply Hz. rewrite Hf. apply list_elem_of_In, in_map, Hy.
  - exfalso. apply Hz. rewrite <- Hf. apply list_elem_of_In, in_map, Hx.
  - apply IH; assumption.
Qed.

Lemma append_new_consistent cs n (c : container) :
  NoDup (map c_name cs) /\ NoDup (map c_id cs)
  /\ (forall x, In x cs -> c_id x < n) ->
  existsb (fun x => String.eqb (c_name x) (c_name c)) cs = false ->
  c_id c = n ->
  NoDup (map c_name (cs ++ [c])) /\ NoDup (map c_id (cs ++ [c]))
  /\ (forall x, In x (cs ++ [c]) -> c_id x < S n).
Proof.
  intros (Hn & Hi & Hb) Hfree Hid. rewrite !map_app. split_and!.
  - apply NoDup_app. split_and!; [exact Hn| |apply NoDup_singleton].
    intros nm Hin Hin'. apply list_elem_of_In in Hin.
    apply list_elem_of_In in Hin'. destruct Hin' as [<-|[]].
    apply in_map_iff in Hin as (y & Hy & Hyin).
    assert (Hex : existsb (fun x => String.eqb (c_name x) (c_name c)) cs = true).
    { apply existsb_exists. exists y. split; [exact Hyin|].
      apply String.eqb_eq. exact Hy. }
    congruence.
  - apply NoDup_app. split_and!; [exact Hi| |apply NoDup_singleton].
    intros i Hin Hin'. apply list_elem_of_In in Hin.
    apply list_elem_of_In in Hin'. destruct Hin' as [<-|[]].
    apply in_map_iff in Hin as (y & Hy & Hyin).
    specialize (Hb y Hyin). lia.
  - intros x Hx. apply in_app_or in Hx as [Hx|[<-|[]]].
    + specialize (Hb x Hx). lia.
    + lia.
Qed.

Lemma start_container_consistent E s :
  client s = true ->
  engine_consistent s ->
  let out := _start_container E s in
  engine_consistent out.2
  /\ forall c, In c (containers s) -> c_name c <> container_name ->
       In c (containers out.2).
Proof.
  intros Hc Hwf out.
  assert (Hfinal : exists s2, out.2 = s2 /\
            (exists s1,
               (cleanup_existing E s).2 = s1 /\
               (s2 = s1 \/ s2 = (start_new E s1).2))).
  { subst out. unfold _start_container. cbv [try_except bind raise].
    destruct (cleanup_existing E s) as [[[]|e] s1].
    - destruct (start_new E s1) as [[[]|e] s2] eqn:Hnew.
      + exists s2. split; [reflexivity|]. exists s1. split; [reflexivity|].
        right. rewrite Hnew. reflexivity.
      + exists s2. split.
        * destruct (Exn.isinstance e Exn.APIError); reflexivity.
        * exists s1. split; [reflexivity|]. right. rewrite Hnew. reflexivity.
    - exists s1. split.
      + destruct (Exn.isinstance e Exn.APIError); reflexivity.
      + exists s1. split; [reflexivity|]. left. reflexivity. }
  destruct Hfinal as (s2 & -> & s1 & Hs1 & Hs2).
  (* after the clean-up *)
  assert (H1 : client s1 = true /\ engine_consistent s1
               /\ forall c, In c (containers s) -> c_name c <> container_name ->
                    In c (containers s1)).
  { rewrite <- Hs1. rewrite cleanup_existing_run by exact Hc. cbv zeta.
    assert (Hsame : forall ev,
              client (log ev s) = true /\ engine_consistent (log ev s)
              /\ (forall c, In c (containers s) -> c_name c <> container_name ->
                    In c (containers (log ev s)))).
    { intros ev. split; [exact Hc|]. split; [exact Hwf|]. auto. }
    destruct (get_fault E) as [eg|].
    { destruct (Exn.isinstance eg Exn.NotFound); apply Hsame. }
    destruct (List.find _ (containers s)) as [old|] eqn:Hfind; [|apply Hsame].
    destruct (remove_fault E) as [er|].
    { destruct (Exn.isinstance er Exn.NotFound);
        (split; [exact Hc|]); (split; [exact Hwf|]); auto. }
    split; [exact Hc|]. split.
    - apply (filter_id_consistent (containers s) (next_id s) (c_id old) Hwf).
    - intros c Hin Hname. simpl. apply List.filter_In. split; [exact Hin|].
      apply List.find_some in Hfind as [Hold Holdname].
      apply String.eqb_eq in Holdname.
      destruct (Nat.eqb_spec (c_id c) (c_id old)) as [Heq|]; [|reflexivity].
      exfalso. destruct Hwf as (_ & Hids & _).
      assert (c = old) by (apply (nodup_map_inj c_id (containers s)); assumption).
      congruence. }
  destruct Hs2 as [-> | ->]; [destruct H1 as (_ & H1 & H2); split; assumption|].
  destruct H1 as (Hc1 & Hwf1 & Hkeep1).
  rewrite start_new_run by exact Hc1. cbv zeta.
  assert (Hsame : forall ev,
            engine_consistent (log ev s1)
            /\ (forall c, In c (containers s) -> c_name c <> container_name ->
                  In c (containers (log ev s1)))).
  { intros ev. split; [exact Hwf1|exact Hkeep1]. }
  assert (Hadd : forall b ev,
            existsb (fun c => String.eqb (c_name c) container_name)
              (containers s1) = false ->
            let c := {| c_id := next_id s1; c_running := b;
                        c_args := launch_args (docker_image s1) (volume_path s1) |} in
            engine_consistent
              (set_containers (containers s1 ++ [c]) (S (next_id s1)) (log ev s1))
            /\ (forall x, In x (containers s) -> c_name x <> container_name ->
                  In x (containers
                          (set_containers (containers s1 ++ [c])
                             (S (next_id s1)) (log ev s1))))).
  { intros b ev Hfree c. split.
    - apply (append_new_consistent (containers s1) (next_id s1) c Hwf1);
        [exact Hfree|reflexivity].
    - intros x Hx Hname. simpl. apply in_or_app. left. auto. }
  destruct (run_fault_of E) as [|e|e]; [|apply Hsame|];
    destruct (existsb _ (containers s1)) eqn:Hex; try apply Hsame.
  - apply (Hadd true _ eq_refl).
  - apply (Hadd false _ eq_refl).
Qed.

(** Whatever the outcome of [_start_container], the engine stays
    consistent, and a container that bears another name than [dns-server]
    is still there afterwards. *)
Theorem start_container_keeps_engine_consistent E s :
  client s = true ->
  engine_consistent s ->
  let out := _start_container E s in
  engine_consistent out.2
  /\ forall c, In c (containers s) -> c_name c <> container_name ->
       In c (containers out.2).
Proof. exact (start_container_consistent E s). Qed.

Lemma shared_engine_consistent : engine_consistent shared_engine.
Proof.
  unfold engine_consistent. simpl. split_and!.
  - apply NoDup_cons. split.
    + intros H. apply list_elem_of_In in H. destruct H as [H|[]]. discriminate H.
    + apply NoDup_singleton.
  - apply NoDup_cons. split.
    + intros H. apply list_elem_of_In in H. destruct H as [H|[]]. discriminate H.
    + apply NoDup_singleton.
  - intros c [<-|[<-|[]]]; simpl; lia.
Qed.

Lemma start_container_keeps_engine_consistent_witness :
  client shared_engine = true
  /\ engine_consistent shared_engine
  /\ In web_server (containers (_start_container calm shared_engine).2).
Proof.
  split; [reflexivity|]. split; [exact shared_engine_consistent|].
  apply (proj2 (start_container_keeps_engine_consistent calm shared_engine
                  eq_refl shared_engine_consistent)).
  - left. reflexivity.
  - discriminate.
Defined.
Lemma start_container_succeeds E s :
  client s = true -> engine_answers E -> NoDup (map c_name (containers s)) ->
  exists s2,
    _start_container E s = (Ok tt, s2)
    /\ named_dns_server (containers s2) = [launched s].
Proof.
  intros Hc (Hgf & Hrf & Hrun) Hnd.
  assert (Hgoal : exists s2, _start_container E s = (Ok tt, s2)).
  { setoid_rewrite start_container_ok_iff.
    rewrite cleanup_existing_run by exact Hc. cbv zeta. rewrite Hgf.
    destruct (List.find _ (containers s)) as [old|] eqn:Hfind.
    - rewrite Hrf. eexists. eexists. split; [reflexivity|].
      rewrite start_new_run by exact Hc. cbv zeta. rewrite Hrun.
      change (containers (set_containers ?cs _ _)) with cs.
      rewrite (no_name_after_remove _ _ Hnd Hfind). reflexivity.
    - eexists. eexists. split; [reflexivity|].
      rewrite start_new_run by exact Hc. cbv zeta. rewrite Hrun.
      rewrite containers_log.
      replace (existsb _ (containers s)) with false; [reflexivity|].
      symmetry. destruct (existsb _ (containers s)) eqn:Hex; [|reflexivity].
      apply existsb_exists in Hex as (x & Hx & Hn).
      apply (List.find_none _ _ Hfind) in Hx. congruence. }
  destruct Hgoal as (s2 & Hs2). exists s2. split; [exact Hs2|].
  apply start_container_ok_iff in Hs2 as (s1 & Hclean & Hnew).
  apply (cleanup_existing_ok E s s1 Hc) in Hclean. cbv zeta in Hclean.
  assert (Hs1 : client s1 = true /\ docker_image s1 = docker_image s
                /\ volume_path s1 = volume_path s /\ next_id s1 = next_id s).
  { destruct Hclean as [[-> _]|(old & _ & _ & [[-> _]|[_ ->]])];
      split_and!; solve [exact Hc | reflexivity]. }
  destruct Hs1 as (Hc1 & Himg & Hvol & Hid).
  apply start_new_ok in Hnew as [Hno ->]; [|exact Hc1].
  change (containers (set_containers ?cs _ _)) with cs.
  rewrite (named_after_launch _ (launched s1) Hno eq_refl).
  unfold launched. rewrite Himg, Hvol, Hid. reflexivity.
Qed.

(** When the new container is created and then fails to start, the
    stage ends with a [DockerError], the container of the earlier run is
    gone, and the container that did not start is left holding the name.
    The next [_start_container] on an engine that answers removes it and
    launches a new one, so a run after a failed launch ends with exactly
    one container of that name. *)
Theorem failed_launch_is_replaced_by_next_run E s e :
  client s = true ->
  engine_consistent s ->
  get_fault E = None -> remove_fault E = None ->
  run_fault_of E = StartFails e ->
  Exn.isinstance e Exn.APIError = true ->
  let out := _start_container E s in
  out.1 = Raise (Exn.Raised Exn.DockerError
                   ("Docker API error: " +:+ Exn.str e))
  /\ named_dns_server (containers out.2)
     = [{| c_id := next_id s; c_running := false;
           c_args := launch_args (docker_image s) (volume_path s) |}]
  /\ forall E', engine_answers E' ->
       exists s2, _start_container E' out.2 = (Ok tt, s2)
                  /\ named_dns_server (containers s2) = [launched out.2].
Proof.
  intros Hc Hwf Hgf Hrf Hrun Hapi out.
  assert (Hwf2 : engine_consistent out.2)
    by exact (proj1 (start_container_consistent E s Hc Hwf)).
  assert (Hout : out = _start_container E s) by reflexivity. clearbody out.
  unfold _start_container in Hout. cbv [try_except bind raise] in Hout.
  rewrite cleanup_existing_run in Hout by exact Hc. cbv zeta in Hout.
  rewrite Hgf in Hout.
  destruct Hwf as (Hnd & _ & _).
  assert (Hshape : exists s1,
            client s1 = true /\ docker_image s1 = docker_image s
            /\ volume_path s1 = volume_path s /\ next_id s1 = next_id s
            /\ existsb (fun c => String.eqb (c_name c) container_name)
                 (containers s1) = false
            /\ out = (let (r, s') := start_new E s1 in
                      match r with
                      | Ok a => (Ok a, s')
                      | Raise e0 =>
                          match
                            (if Exn.isinstance e0 Exn.APIError
                             then Some (fun s0 : state =>
                                    (Raise (A:=unit)
                                       (Exn.Raised Exn.DockerError
                                          ("Docker API error: " +:+ Exn.str e0)),
                                     s0))
                             else None)
                          with
                          | Some k => k s'
                          | None => (Raise e0, s')
                          end
                      end)).
  { destruct (List.find _ (containers s)) as [old|] eqn:Hfind.
    - rewrite Hrf in Hout. eexists. split_and!; [..|exact Hout];
        try reflexivity; [exact Hc|].
      apply (no_name_after_remove _ _ Hnd Hfind).
    - eexists. split_and!; [..|exact Hout]; try reflexivity; [exact Hc|].
      rewrite containers_log.
      destruct (existsb _ (containers s)) eqn:Hex; [|reflexivity].
      apply existsb_exists in Hex as (x & Hx & Hn).
      apply (List.find_none _ _ Hfind) in Hx. congruence. }
  destruct Hshape as (s1 & Hc1 & Himg & Hvol & Hid & Hfree & Hout1).
  rewrite start_new_run in Hout1 by exact Hc1. cbv zeta in Hout1.
  rewrite Hrun, Hfree, Hapi in Hout1.
  assert (Hc2 : client out.2 = true) by (rewrite Hout1; exact Hc1).
  split_and!.
  - rewrite Hout1. reflexivity.
  - rewrite Hout1. simpl. rewrite Himg, Hvol, Hid.
    apply (named_after_launch _ _ Hfree). reflexivity.
  - intros E' HE'. apply start_container_succeeds; [exact Hc2|exact HE'|].
    exact (proj1 Hwf2).
Qed.

Lemma failed_launch_is_replaced_by_next_run_witness :
  client shared_engine = true
  /\ engine_consistent shared_engine
  /\ (_start_container port_taken shared_engine).1
     = Raise (Exn.Raised Exn.DockerError
                ("Docker API error: "
                 +:+ "500 Server Error: address already in use"))
  /\ exists s2,
       _start_container calm (_start_container port_taken shared_engine).2
       = (Ok tt, s2).
Proof.
  split; [reflexivity|]. split; [exact shared_engine_consistent|].
  destruct (failed_launch_is_replaced_by_next_run port_taken shared_engine _
              eq_refl shared_engine_consistent eq_refl eq_refl eq_refl eq_refl)
    as (H1 & _ & H3).
  split; [exact H1|].
  destruct (H3 calm) as (s2 & Hs2 & _).
  - split_and!; reflexivity.
  - exists s2. exact Hs2.
Defined.
(** ** What a failed run leaves behind *)

Section StageObservation.

Context {B : Type} (f : state -> B).
Hypothesis f_log : forall ev s, f (log ev s) = f s.
Hypothesis f_ip : forall ip s, f (set_public_ip ip s) = f s.
Hypothesis f_client : forall c s, f (set_client c s) = f s.
Hypothesis f_records : forall r s, f (set_dns_records r s) = f s.

Ltac obs_step :=
  match goal with
  | |- preserves _ (bind _ _) => apply preserves_bind; [|intros ?]
  | |- preserves _ (try_except _ _) =>
      apply preserves_try_except; [|intros ? ? ?; handler_cases]
  | |- preserves _ (ret _) => apply preserves_ret
  | |- preserves _ (raise _) => apply preserves_raise
  | |- preserves _ (gets _) => apply preserves_gets
  | |- preserves _ (lift _) => apply preserves_lift
  | |- preserves _ (emit _) => apply preserves_modify; intros ?; apply f_log
  | |- preserves _ (print _) => apply preserves_modify; intros ?; apply f_log
  | |- preserves _ (modify (set_public_ip _)) =>
      apply preserves_modify; intros ?; apply f_ip
  | |- preserves _ (modify (set_client _)) =>
      apply preserves_modify; intros ?; apply f_client
  | |- preserves _ (via_client _ _) => unfold via_client
  | |- preserves _ (if _ then _ else _) => apply preserves_if
  | |- preserves _ (match ?x with _ => _ end) => destruct x
  end.

Lemma run_command_obs E cmd : preserves f (_run_command E cmd).
Proof using f_log.
  unfold _run_command, subprocess_run. repeat obs_step.
Qed.

Lemma resolve_stage_obs E :
  preserves f
    (let! ip := _get_public_ip E in
     modify (set_public_ip (Some ip)) ;;;
     let! shown := gets public_ip in
     print ("Public IP detected: " +:+ str_of_opt shown)).
Proof using f_log f_ip.
  unfold _get_public_ip, requests_get.
  repeat first [apply run_command_obs | obs_step].
Qed.

Lemma setup_docker_obs E : preserves f (_setup_docker E).
Proof using f_log.
  unfold _setup_docker. repeat first [apply run_command_obs | obs_step].
Qed.

Lemma connect_stage_obs E :
  preserves f (let! c := docker_from_env E in modify (set_client c)).
Proof using f_log f_client.
  unfold docker_from_env. repeat obs_step.
Qed.

Lemma pull_bind_image_obs E : preserves f (_pull_bind_image E).
Proof using f_log.
  unfold _pull_bind_image. generalize (seq 0 max_retries). intros l.
  induction l as [|k l IH]; simpl; [apply preserves_ret|].
  apply preserves_bind.
  - unfold pull_attempt, images_pull. repeat obs_step.
  - intros []; [apply preserves_ret|exact IH].
Qed.

Lemma organize_obs records : preserves f (organize records).
Proof using f_records.
  unfold organize. apply preserves_for_each. intros r _.
  apply preserves_modify. intros s. apply f_records.
Qed.

End StageObservation.

Lemma start_container_keeps_files E : preserves files (_start_container E).
Proof.
  unfold _start_container, cleanup_existing, start_new, containers_get,
    container_remove, containers_run.
  preserves_auto.
Qed.

Lemma zone_files_keep_containers E : preserves containers (_generate_zone_files E).
Proof.
  intros s. apply (generate_zone_files_obs containers); reflexivity.
Qed.

Lemma staged_preserves {B} (f : state -> B) l s blocks r :
  staged l s blocks r ->
  (forall tag m, In (tag, m) l -> In tag (map fst blocks) -> preserves f m) ->
  f r.2 = f s.
Proof.
  induction 1 as [s|tag m rest s s1 evs blocks out Hm _ _ IH
                   |tag m rest s s1 e evs Hm _]; intros Hp.
  - reflexivity.
  - rewrite IH.
    + specialize (Hp tag m (or_introl eq_refl) (or_introl eq_refl) s).
      rewrite Hm in Hp. exact Hp.
    + intros tag' m' Hin Hb. apply (Hp tag' m'); right; assumption.
  - specialize (Hp tag m (or_introl eq_refl) (or_introl eq_refl) s).
    rewrite Hm in Hp. exact Hp.
Qed.

Lemma start_outcome_files r : files (start_outcome r).2 = files r.2.
Proof.
  destruct r as [[[]|e] s]; [reflexivity|]. unfold start_outcome.
  destruct (_ || _); [reflexivity|].
  destruct (Exn.isinstance e Exn.KeyboardInterrupt); reflexivity.
Qed.

Lemma start_outcome_containers r :
  containers (start_outcome r).2 = containers r.2.
Proof.
  destruct r as [[[]|e] s]; [reflexivity|]. unfold start_outcome.
  destruct (_ || _); [reflexivity|].
  destruct (Exn.isinstance e Exn.KeyboardInterrupt); reflexivity.
Qed.

(** A run that ends before the stage that writes the files leaves every
    file as it was, and a run that ends before the stage that replaces the
    container leaves every container as it was: until the image is pulled
    and the files are written, the server of an earlier run is not
    touched.  And the stage that replaces the container never changes a
    file, so the files written stay when the launch fails. *)
Theorem failed_run_leaves_the_rest E records s :
  (forall s', files (_start_container E s').2 = files s')
  /\ exists blocks r,
       staged (start_stages E records) s blocks r
       /\ start E records s = start_outcome r
       /\ (~ In WriteFiles (map fst blocks) ->
           files (start E records s).2 = files s)
       /\ (~ In ReplaceContainer (map fst blocks) ->
           containers (start E records s).2 = containers s).
Proof.
  split; [apply start_container_keeps_files|].
  destruct (run_stages_staged _ (start_stages_emit E records) s)
    as (blocks & Hst & _).
  exists blocks, (run_stages (start_stages E records) s).
  split; [exact Hst|]. split; [apply start_by_stages|].
  rewrite start_by_stages, start_outcome_files, start_outcome_containers.
  split.
  - intros Hno. apply (staged_preserves files _ _ _ _ Hst).
    intros tag m Hin Hb. unfold start_stages in Hin. simpl in Hin.
    destruct Hin as [H|[H|[H|[H|[H|[H|[H|[]]]]]]]]; injection H as <- <-.
    + apply resolve_stage_obs; reflexivity.
    + apply setup_docker_obs; reflexivity.
    + apply connect_stage_obs; reflexivity.
    + apply pull_bind_image_obs; reflexivity.
    + apply organize_obs; reflexivity.
    + contradiction.
    + apply start_container_keeps_files.
  - intros Hno. apply (staged_preserves containers _ _ _ _ Hst).
    intros tag m Hin Hb. unfold start_stages in Hin. simpl in Hin.
    destruct Hin as [H|[H|[H|[H|[H|[H|[H|[]]]]]]]]; injection H as <- <-.
    + apply resolve_stage_obs; reflexivity.
    + apply setup_docker_obs; reflexivity.
    + apply connect_stage_obs; reflexivity.
    + apply pull_bind_image_obs; reflexivity.
    + apply organize_obs; reflexivity.
    + apply zone_files_keep_containers.
    + contradiction.
Qed.
(** ** A run in which every call goes through *)

Lemma zone_files_run_ok E s :
  clock_valid E -> NoDup (Py.keys (dns_records s)) ->
  mkdir_fault E = None -> (forall path, write_fault E path = None) ->
  exists s',
    _generate_zone_files E s = (Ok tt, s')
    /\ files s' !! path_join (volume_path s) "named.conf"
       = Some (named_conf_text
                 (Py.join Py.nl (map zone_entry (Py.keys (dns_records s)))))
    /\ (forall i d, Py.keys (dns_records s) !! i = Some d ->
          files s' !! zone_path (volume_path s) d
          = Some (zone_at E (count_events is_utcnow s + i) (public_ip s)
                    (dns_records s) d))
    /\ containers s' = containers s /\ next_id s' = next_id s
    /\ client s' = client s /\ dns_records s' = dns_records s
    /\ public_ip s' = public_ip s /\ docker_image s' = docker_image s
    /\ volume_path s' = volume_path s.
Proof.
  intros Hclock Hnd Hmk Hw.
  unfold _generate_zone_files. cbv [try_except bind gets].
  rewrite path_mkdir_run, Hmk.
  unfold _generate_zone_entries. cbv [bind gets ret].
  change (dns_records (set_dirs ?x ?y)) with (dns_records y).
  change (dns_records (log ?x ?y)) with (dns_records y).
  set (conf := named_conf_text _).
  rewrite write_text_run. cbv zeta. rewrite Hw.
  set (s1 := set_files _ _).
  change (dns_records s1) with (dns_records s).
  pose proof (zone_loop E (volume_path s) (Py.keys (dns_records s)) [] s1 Hclock)
    as HL.
  rewrite app_nil_r in HL. cbv zeta in HL.
  destruct HL as (L1 & _ & L3 & L4 & _ & L6 & L7).
  { intros d Hd. apply get_of_keys. exact Hd. }
  { intros d _. apply Hw. }
  { exact Hnd. }
  { exact I. }
  assert (Hn : count_events is_utcnow s1 = count_events is_utcnow s).
  { unfold s1.
    change (count_events is_utcnow (set_files ?f ?x))
      with (count_events is_utcnow x).
    rewrite count_utcnow_write.
    change (count_events is_utcnow (set_dirs ?f ?x))
      with (count_events is_utcnow x).
    rewrite count_events_log. simpl. lia. }
  rewrite Hn in L3.
  assert (Hrest : forall s2,
            (for_each (Py.keys (dns_records s)) (write_zone E (volume_path s)) s1).2
            = s2 ->
            containers s2 = containers s /\ next_id s2 = next_id s
            /\ client s2 = client s /\ docker_image s2 = docker_image s
            /\ volume_path s2 = volume_path s).
  { intros s2 <-. split_and!.
    - transitivity (containers s1); [|reflexivity].
      apply (preserves_for_each containers). intros d _.
      apply write_zone_obs; reflexivity.
    - transitivity (next_id s1); [|reflexivity].
      apply (preserves_for_each next_id). intros d _.
      apply write_zone_obs; reflexivity.
    - transitivity (client s1); [|reflexivity].
      apply (preserves_for_each client). intros d _.
      apply write_zone_obs; reflexivity.
    - transitivity (docker_image s1); [|reflexivity].
      apply (preserves_for_each docker_image). intros d _.
      apply write_zone_obs; reflexivity.
    - transitivity (volume_path s1); [|reflexivity].
      apply (preserves_for_each volume_path). intros d _.
      apply write_zone_obs; reflexivity. }
  destruct (for_each _ _ s1) as [r s2]. simpl in L1, L3, L4, L6, L7. subst r.
  destruct (Hrest s2 eq_refl) as (R1 & R2 & R3 & R4 & R5).
  exists s2. split_and!; try assumption; try reflexivity.
  - rewrite L4.
    + unfold s1. simpl. apply lookup_insert_eq.
    + intros d _. apply not_eq_sym, zone_path_not_conf.
Qed.









(** ** Writing the files again *)

Lemma count_utcnow_zone_writes E dir n ip model apexes :
  length (filter (fun ev => is_utcnow ev = true)
            (zone_writes E dir n ip model apexes))
  = length apexes.
Proof.
  revert n. induction apexes as [|d apexes IH]; intros n; [reflexivity|].
  simpl zone_writes.
  rewrite filter_cons_True by reflexivity.
  rewrite filter_cons_False by discriminate.
  simpl. rewrite IH. reflexivity.
Qed.

Lemma zone_files_run_counts E s :
  clock_valid E -> NoDup (Py.keys (dns_records s)) ->
  mkdir_fault E = None -> (forall path, write_fault E path = None) ->
  let s' := (_generate_zone_files E s).2 in
  count_events is_utcnow s'
  = count_events is_utcnow s + length (Py.keys (dns_records s))
  /\ dirs s' = dirs s ∪ list_to_set (with_parents (volume_path s)).
Proof.
  intros Hclock Hnd Hmk Hw.
  unfold _generate_zone_files. cbv [try_except bind gets].
  rewrite path_mkdir_run, Hmk.
  unfold _generate_zone_entries. cbv [bind gets ret].
  change (dns_records (set_dirs ?x ?y)) with (dns_records y).
  change (dns_records (log ?x ?y)) with (dns_records y).
  set (conf := named_conf_text _).
  rewrite write_text_run. cbv zeta. rewrite Hw.
  set (s1 := set_files _ _).
  change (dns_records s1) with (dns_records s).
  pose proof (zone_loop E (volume_path s) (Py.keys (dns_records s)) [] s1 Hclock)
    as HL.
  rewrite app_nil_r in HL. cbv zeta in HL.
  destruct HL as (L1 & L2 & _ & _ & L5 & _ & _).
  { intros d Hd. apply get_of_keys. exact Hd. }
  { intros d _. apply Hw. }
  { exact Hnd. }
  { exact I. }
  destruct (for_each _ _ s1) as [r s2]. simpl in L1, L2, L5. subst r.
  cbv zeta. simpl. split.
  - unfold count_events. rewrite L2, filter_app, length_app.
    rewrite count_utcnow_zone_writes.
    change (trace s1) with (trace s ++ [EMkdir (volume_path s)]
                              ++ [EWriteText (path_join (volume_path s)
                                                "named.conf") conf]).
    rewrite !filter_app, !length_app. simpl. lia.
  - rewrite L5. reflexivity.
Qed.

Lemma same_hour_serial t1 t2 :
  same_hour t1 t2 -> YYYYMMDDHH t1 = YYYYMMDDHH t2.
Proof.
  intros (Hy & Hm & Hd & Hh). unfold YYYYMMDDHH. rewrite Hy, Hm, Hd, Hh.
  reflexivity.
Qed.

(** Writing the files a second time from the same model, with every zone
    rendered in the same hour as the first time, leaves the disk as the
    first call left it: the same files with the same text, serial
    included, and the same directories. *)
Theorem zone_files_again_within_the_hour E s :
  clock_valid E -> NoDup (Py.keys (dns_records s)) ->
  mkdir_fault E = None -> (forall path, write_fault E path = None) ->
  let n := count_events is_utcnow s in
  let k := length (Py.keys (dns_records s)) in
  (forall i, i < k -> same_hour (utcnow E (n + i)) (utcnow E (n + k + i))) ->
  let once := _generate_zone_files E s in
  let twice := _generate_zone_files E once.2 in
  once.1 = Ok tt /\ twice.1 = Ok tt
  /\ files twice.2 = files once.2
  /\ dirs twice.2 = dirs once.2.
Proof.
  intros Hclock Hnd Hmk Hw n k Hhour once twice.
  destruct (zone_files_run_ok E s Hclock Hnd Hmk Hw)
    as (s1 & H1 & F1 & Z1 & _ & _ & _ & D1 & P1 & _ & V1).
  destruct (zone_files_run_counts E s Hclock Hnd Hmk Hw) as (N1 & Dirs1).
  fold once in N1, Dirs1.
  assert (Honce : once = (Ok tt, s1)) by exact H1.
  rewrite Honce in N1, Dirs1. simpl in N1, Dirs1.
  assert (Hnd1 : NoDup (Py.keys (dns_records s1))) by (rewrite D1; exact Hnd).
  destruct (zone_files_run_ok E s1 Hclock Hnd1 Hmk Hw)
    as (s2 & H2 & F2 & Z2 & _).
  destruct (zone_files_run_counts E s1 Hclock Hnd1 Hmk Hw) as (_ & Dirs2).
  assert (Htwice : twice = (Ok tt, s2)).
  { unfold twice. rewrite Honce. exact H2. }
  rewrite H2 in Dirs2. simpl in Dirs2.
  rewrite Htwice, Honce. simpl. split_and!; try reflexivity.
  - apply map_eq. intros p.
    destruct (decide (p = path_join (volume_path s) "named.conf")) as [->|Hc].
    { rewrite F1. rewrite <- V1, <- D1. exact F2. }
    destruct (decide (p ∈ zone_path (volume_path s) <$> Py.keys (dns_records s)))
      as [Hin|Hout].
    + apply list_elem_of_fmap in Hin as (d & -> & Hd).
      apply list_elem_of_lookup in Hd as (i & Hi).
      rewrite (Z1 i d Hi).
      rewrite D1, V1, P1 in Z2. rewrite (Z2 i d Hi). f_equal.
      unfold zone_at. f_equal. rewrite N1. symmetry.
      fold n k. rewrite <- Nat.add_assoc, (Nat.add_comm k i), Nat.add_assoc.
      replace (n + i + k) with (n + k + i) by lia.
      apply same_hour_serial, Hhour.
      apply lookup_lt_Some in Hi. exact Hi.
    + pose proof (generate_zone_files_obs (fun s => files s !! p)
                    (fun _ _ => eq_refl) (fun _ _ => eq_refl) E s1) as Hf.
      rewrite H2 in Hf. simpl in Hf. apply Hf.
      * intros c s'. simpl. apply lookup_insert_ne. rewrite V1. congruence.
      * intros d c s' Hd. simpl. apply lookup_insert_ne.
        intros Heq. apply Hout. rewrite <- Heq, V1.
        apply list_elem_of_fmap. exists d. split; [reflexivity|].
        apply list_elem_of_In. rewrite <- D1. exact Hd.
  - rewrite Dirs2, Dirs1, V1.
    rewrite <- (assoc_L (∪)), (idemp_L (∪)). reflexivity.
Qed.

Lemma zone_files_again_within_the_hour_witness :
  clock_valid calm
  /\ NoDup (Py.keys (dns_records two_zones))
  /\ files (_generate_zone_files calm (_generate_zone_files calm two_zones).2).2
     = files (_generate_zone_files calm two_zones).2.
Proof.
  assert (Hclock : clock_valid calm) by (intros n; exact noon_valid).
  split; [exact Hclock|]. split; [exact two_zones_keys_nodup|].
  refine (proj1 (proj2 (proj2
            (zone_files_again_within_the_hour calm two_zones Hclock
               two_zones_keys_nodup eq_refl (fun _ => eq_refl) _)))).
  intros i _. split; [reflexivity|]. split; [reflexivity|].
  split; reflexivity.
Defined.

(** ** What leaves [start] and [main] *)

(** Neither of the program's two error classes nor an interrupt leaves
    [start]: each is turned into a [SystemExit].  No [Exception] leaves
    [main]: whatever comes out of it is a return or an exception outside
    that class, such as the [SystemExit] raised by a handler, and
    [SystemExit] itself is caught by no handler of the program. *)
Theorem no_exception_leaves_main E argv records s :
  match (start E records s).1 with
  | Ok _ => True
  | Raise e =>
      Exn.isinstance e Exn.DNSConfigError = false
      /\ Exn.isinstance e Exn.DockerError = false
      /\ Exn.isinstance e Exn.KeyboardInterrupt = false
  end
  /\ match (main E argv s).1 with
     | Ok _ => True
     | Raise e => Exn.isinstance e Exn.Exception = false
     end
  /\ forall code,
       Exn.isinstance (Exn.Exit code) Exn.Exception = false
       /\ Exn.isinstance (Exn.Exit code) Exn.KeyboardInterrupt = false.
Proof.
  split_and!.
  - rewrite start_by_stages.
    destruct (run_stages (start_stages E records) s) as [[[]|e] s1];
      [exact I|].
    unfold start_outcome.
    destruct (Exn.isinstance e Exn.DNSConfigError) eqn:H1;
      [simpl; repeat split|].
    destruct (Exn.isinstance e Exn.DockerError) eqn:H2;
      [simpl; repeat split|].
    simpl orb. cbv iota.
    destruct (Exn.isinstance e Exn.KeyboardInterrupt) eqn:H3;
      [simpl; repeat split|].
    simpl. rewrite H1, H2, H3. repeat split.
  - unfold main, try_except.
    match goal with
    | |- context [match ?m s with _ => _ end] => destruct (m s) as [[[]|e] s1]
    end; [exact I|].
    destruct (Exn.isinstance e Exn.ValueError) eqn:H1; [reflexivity|].
    destruct (Exn.isinstance e Exn.Exception) eqn:H2; [reflexivity|].
    simpl. exact H2.
  - intros code. split; reflexivity.
Qed.
(** ** The exceptions of a run *)

Lemma raises_weaken {A} (P Q : Exn.t -> Prop) (m : M A) :
  (forall e, P e -> Q e) -> raises P m -> raises Q m.
Proof. intros HPQ Hm s e He. apply HPQ, (Hm s e He). Qed.

Lemma raises_ret {A} Q (a : A) : raises Q (ret a).
Proof. intros s e He. discriminate He. Qed.

Lemma raises_gets {A} Q (f : state -> A) : raises Q (gets f).
Proof. intros s e He. discriminate He. Qed.

Lemma raises_modify Q (f : state -> state) : raises Q (modify f).
Proof. intros s e He. discriminate He. Qed.

Lemma raises_emit Q ev : raises Q (emit ev).
Proof. intros s e He. discriminate He. Qed.

Lemma raises_raise {A} (Q : Exn.t -> Prop) e : Q e -> raises Q (raise (A:=A) e).
Proof. intros HQ s e' He. injection He as <-. exact HQ. Qed.

Lemma raises_lift {A} (Q : Exn.t -> Prop) (r : result A) :
  (forall e, r = Raise e -> Q e) -> raises Q (lift r).
Proof. intros Hr s e He. apply Hr. exact He. Qed.

Lemma raises_bind {A B} Q (m : M A) (f : A -> M B) :
  raises Q m -> (forall a, raises Q (f a)) -> raises Q (bind m f).
Proof.
  intros Hm Hf s e. unfold bind. pose proof (Hm s) as Hs.
  destruct (m s) as [[a|e'] s1]; simpl in Hs.
  - apply Hf.
  - simpl. intros He. injection He as <-. apply Hs. reflexivity.
Qed.

Lemma raises_try_except {A} Q (m : M A) h :
  raises Q m -> (forall e k, h e = Some k -> raises Q k) ->
  raises Q (try_except m h).
Proof.
  intros Hm Hh s e. unfold try_except. pose proof (Hm s) as Hs.
  destruct (m s) as [[a|e'] s1]; simpl in Hs.
  - discriminate.
  - destruct (h e') as [k|] eqn:Hk.
    + apply (Hh e' k Hk).
    + simpl. intros He. injection He as <-. apply Hs. reflexivity.
Qed.

Lemma raises_for_each {A} Q (l : list A) body :
  (forall x, raises Q (body x)) -> raises Q (for_each l body).
Proof.
  intros Hb. induction l as [|x l IH]; [apply raises_ret|].
  simpl. apply raises_bind; [apply Hb|intros _; exact IH].
Qed.

Lemma raises_if {A} Q (b : bool) (m1 m2 : M A) :
  raises Q m1 -> raises Q m2 -> raises Q (if b then m1 else m2).
Proof. destruct b; tauto. Qed.

Ltac raises_step :=
  match goal with
  | |- raises _ (bind _ _) => apply raises_bind; [|intros ?]
  | |- raises _ (try_except _ _) =>
      apply raises_try_except; [|intros ? ? ?; handler_cases]
  | |- raises _ (ret _) => apply raises_ret
  | |- raises _ (gets _) => apply raises_gets
  | |- raises _ (modify _) => apply raises_modify
  | |- raises _ (emit _) => apply raises_emit
  | |- raises _ (print _) => apply raises_emit
  | |- raises _ (eprint _) => apply raises_emit
  | |- raises _ (for_each _ _) => apply raises_for_each; intros ?
  | |- raises _ (via_client _ _) => unfold via_client
  | |- raises _ (if _ then _ else _) => apply raises_if
  | |- raises _ (raise (Exn.Raised _ _)) =>
      apply raises_raise; left; reflexivity
  | |- raises _ (raise (Exn.ProcessFailed _ _)) =>
      apply raises_raise; left; reflexivity
  | |- raises _ (raise ?e) => apply raises_raise; eauto
  | |- raises _ (match ?x with _ => _ end) => destruct x eqn:?
  end.

Ltac raises_auto := repeat raises_step.

Section Raises.
Variable E : env.
Hypothesis HE : env_raises ordinary E.

Lemma run_command_raises cmd : raises ordinary (_run_command E cmd).
Proof using HE.
  destruct HE as (_ & Hshell & _).
  unfold _run_command, subprocess_run. raises_auto.
  apply raises_lift. apply Hshell.
Qed.

Lemma get_public_ip_raises : raises ordinary (_get_public_ip E).
Proof using HE.
  pose proof HE as (Hhttp & _).
  unfold _get_public_ip, requests_get. raises_auto.
  - apply raises_lift. exact Hhttp.
  - apply run_command_raises.
Qed.

Lemma setup_docker_raises : raises ordinary (_setup_docker E).
Proof using HE.
  unfold _setup_docker. raises_auto; apply run_command_raises.
Qed.

Lemma from_env_raises : raises ordinary (docker_from_env E).
Proof using HE.
  destruct HE as (_ & _ & Henv & _).
  unfold docker_from_env. raises_auto. apply raises_lift. exact Henv.
Qed.

Lemma pull_bind_image_raises : raises ordinary (_pull_bind_image E).
Proof using HE.
  destruct HE as (_ & _ & _ & Hpull & _).
  unfold _pull_bind_image. generalize (seq 0 max_retries). intros l.
  induction l as [|k l IH]; simpl; [apply raises_ret|].
  apply raises_bind.
  - unfold pull_attempt, images_pull. raises_auto.
    apply raises_lift. apply Hpull.
  - intros []; [apply raises_ret|exact IH].
Qed.

Lemma organize_raises records : raises ordinary (organize records).
Proof. unfold organize. raises_auto. Qed.

Lemma generate_zone_files_raises : raises ordinary (_generate_zone_files E).
Proof using HE.
  destruct HE as (_ & _ & _ & _ & Hmk & Hw & _).
  unfold _generate_zone_files, path_mkdir, _generate_zone_entries, write_zone,
    _generate_zone_file, _get_serial, datetime_utcnow, write_text.
  raises_auto.
Qed.

Lemma start_container_raises : raises ordinary (_start_container E).
Proof using HE.
  destruct HE as (_ & _ & _ & _ & _ & _ & Hg & Hr & Hc & Hs).
  unfold _start_container, cleanup_existing, start_new, containers_get,
    container_remove, containers_run.
  raises_auto.
Qed.

Lemma start_stages_raise records :
  raises ordinary (run_stages (start_stages E records)).
Proof using HE.
  unfold start_stages, run_stages. raises_auto.
  - apply get_public_ip_raises.
  - apply setup_docker_raises.
  - apply from_env_raises.
  - apply pull_bind_image_raises.
  - apply organize_raises.
  - apply generate_zone_files_raises.
  - apply start_container_raises.
Qed.

End Raises.

Lemma parse_records_raises entries acc :
  raises (fun e => Exn.isinstance e Exn.Exception = true)
    (parse_records entries acc).
Proof.
  revert acc. induction entries as [|entry rest IH]; intros acc; simpl.
  - apply raises_ret.
  - destruct (negb _); [apply raises_raise; reflexivity|].
    destruct (Py.split1 "=" entry) as [|host [|ip [|x l]]];
      try (apply raises_raise; reflexivity).
    apply IH.
Qed.

(** Whatever the environment does, as long as the exceptions it raises
    are [Exception]s or interrupts, the process ends with one of four
    statuses: 0, 1, 2 or 130.  No traceback ends a run. *)
Theorem process_ends_with_known_status E argv s :
  env_raises ordinary E ->
  exists code,
    exit_status (main E argv s).1 = Some code
    /\ (code = 0 \/ code = 1 \/ code = 2 \/ code = 130)%Z.
Proof.
  intros HE.
  set (Qb := fun e : Exn.t =>
         Exn.isinstance e Exn.Exception = true
         \/ e = Exn.Exit 1 \/ e = Exn.Exit 2 \/ e = Exn.Exit 130).
  assert (Hstart : forall records, raises Qb (start E records)).
  { intros records s0 e. rewrite start_by_stages.
    pose proof (start_stages_raise E HE records s0) as Hst.
    destruct (run_stages (start_stages E records) s0) as [[[]|e0] s1];
      [discriminate|].
    specialize (Hst e0 eq_refl). unfold start_outcome.
    destruct (_ || _); [intros He; injection He as <-; right; left; reflexivity|].
    destruct (Exn.isinstance e0 Exn.KeyboardInterrupt) eqn:Hk.
    - intros He; injection He as <-. right; right; right. reflexivity.
    - intros He; injection He as <-. left.
      destruct Hst as [Hx|Hx]; [exact Hx|congruence]. }
  unfold main.
  match goal with |- context [try_except ?b _] => set (body := b) end.
  assert (Hb : raises Qb body).
  { unfold body, parse_args. apply raises_bind.
    - destruct argv.
      + apply raises_bind; [apply raises_emit|intros _].
        apply raises_raise. right; right; left. reflexivity.
      + apply raises_ret.
    - intros entries. apply raises_bind.
      + eapply raises_weaken; [|apply parse_records_raises].
        intros e He. left. exact He.
      + intros records. apply raises_bind; [apply raises_modify|intros _].
        apply raises_bind; [apply Hstart|intros dns_ip].
        repeat (apply raises_bind; [apply raises_emit|intros _]).
        destruct (Py.keys records); [|apply raises_emit].
        apply raises_raise. left. reflexivity. }
  unfold try_except. specialize (Hb s). clearbody body.
  destruct (body s) as [[[]|e] s1].
  - exists 0%Z. split; [reflexivity|]. left. reflexivity.
  - specialize (Hb e eq_refl).
    destruct (Exn.isinstance e Exn.ValueError) eqn:Hv.
    { exists 2%Z. split; [reflexivity|]. right; right; left. reflexivity. }
    destruct (Exn.isinstance e Exn.Exception) eqn:Hx.
    { exists 1%Z. split; [reflexivity|]. right; left. reflexivity. }
    destruct Hb as [Hb|[-> | [-> | ->]]]; [congruence| | |].
    + exists 1%Z. split; [reflexivity|]. right; left. reflexivity.
    + exists 2%Z. split; [reflexivity|]. right; right; left. reflexivity.
    + exists 130%Z. split; [reflexivity|]. right; right; right. reflexivity.
Qed.

Lemma process_ends_with_known_status_witness :
  env_raises ordinary interrupted
  /\ exists code,
       exit_status (main interrupted ["a.example.com=1.1.1.1"] (boot ∅ [] 0)).1
       = Some code
       /\ (code = 0 \/ code = 1 \/ code = 2 \/ code = 130)%Z.
Proof.
  assert (H : env_raises ordinary interrupted).
  { unfold env_raises. split_and!; try (intros; discriminate).
    intros n e He. injection He as <-. right. reflexivity. }
  split; [exact H|].
  exact (process_ends_with_known_status interrupted ["a.example.com=1.1.1.1"]
           (boot ∅ [] 0) H).
Defined.
(** ** Running a command *)

(** [_run_command] makes one shell call and touches nothing else.  What
    it returns is the output of a command that ended with status 0,
    trimmed, so that trimming it again changes nothing.  A
    [CalledProcessError] never leaves it: a command that ends with
    another status is reported as a [DNSConfigError] naming the command
    and its error output, and any other failure of the call is passed on
    as it is. *)
Theorem run_command_one_call E cmd s :
  let out := _run_command E cmd s in
  trace out.2 = trace s ++ [EShell cmd]
  /\ files out.2 = files s /\ containers out.2 = containers s
  /\ (forall v, out.1 = Ok v ->
        Py.strip v = v
        /\ exists p, shell E cmd = Ok p /\ returncode p = 0%Z
                     /\ v = Py.strip (stdout p))
  /\ (forall e, out.1 = Raise e ->
        Exn.isinstance e Exn.CalledProcessError = false
        /\ ((exists p, shell E cmd = Ok p /\ returncode p <> 0%Z
                       /\ e = Exn.Raised Exn.DNSConfigError
                                ("Command failed: " +:+ cmd +:+ Py.nl
                                 +:+ "Error: " +:+ stderr p))
            \/ (exists e0, shell E cmd = Raise e0
                  /\ (Exn.isinstance e0 Exn.CalledProcessError = false ->
                      e = e0)))).
Proof.
  intros out. subst out. rewrite run_command_run.
  destruct (shell E cmd) as [p|e0].
  - destruct (returncode p =? 0)%Z eqn:H0.
    + apply Z.eqb_eq in H0. split_and!; try reflexivity.
      * intros v Hv. injection Hv as <-. split; [apply strip_idempotent|].
        exists p. auto.
      * intros e He. discriminate He.
    + apply Z.eqb_neq in H0. split_and!; try reflexivity.
      * intros v Hv. discriminate Hv.
      * intros e He. injection He as <-. split; [reflexivity|].
        left. exists p. auto.
  - destruct (Exn.isinstance e0 Exn.CalledProcessError) eqn:Hc.
    + split_and!; try reflexivity.
      * intros v Hv. discriminate Hv.
      * intros e He. injection He as <-. split; [reflexivity|].
        right. exists e0. split; [reflexivity|]. congruence.
    + split_and!; try reflexivity.
      * intros v Hv. discriminate Hv.
      * intros e He. injection He as <-. split; [exact Hc|].
        right. exists e0. split; [reflexivity|]. reflexivity.
Qed.
